(** * LSB image steganography: the bit framer and the raster codec

    A shallow embedding of [steganography_gui.py]: the four functions
    [message_to_bits], [bits_to_message], [hide_message_in_image] and
    [extract_message_from_image], over a model of the Python values and
    of the PIL pixel buffer they work on.

    - A Python [int] the program computes with (channel values, bits,
      the declared length, slice bounds) is a [Z]; the image size, the
      pixel coordinates and the bit cursor, which it only counts up
      from 0 and compares, are [nat].
    - The text of a message is a list of Unicode code points ([N]);
      a bit string (a [str] of the characters '0' and '1') is a
      [list ascii].
    - An RGB image is its size and its pixel buffer in row-major order;
      [pixels[x, y]] is the entry at index [y * width + x].
    - An exception is a value of [exn]; a computation that may raise
      returns a [result].  Code that mutates the pixel buffer is in the
      monad [M], which keeps the buffer when an exception is raised.
    - Opening, converting to RGB and saving the image are the image
      library's part: the functions take the RGB raster and give the
      raster back. *)

From Stdlib Require Import Ascii String DecimalString.
From Stdlib Require Import ZArith List Bool Lia Arith.
Import ListNotations.

Local Open Scope Z_scope.

(** ** Exceptions and results *)

Inductive exn : Type :=
| ValueError (msg : string)
| IndexError
| TypeError.

Inductive result (A : Type) : Type :=
| Ok (a : A)
| Raise (e : exn).

Arguments Ok {A} a.
Arguments Raise {A} e.

Definition rbind {A B : Type} (r : result A) (k : A -> result B) : result B :=
  match r with
  | Ok a => k a
  | Raise e => Raise e
  end.

Declare Scope result_scope.
Delimit Scope result_scope with result.
Notation "x <- r ;; k" := (rbind r (fun x => k))
  (at level 61, r at next level, right associativity) : result_scope.
Notation "' p <- r ;; k" := (rbind r (fun x => match x with p => k end))
  (at level 61, p pattern, r at next level, right associativity) : result_scope.

(** ** The Python built-ins the program calls *)

Module Py.

Definition str := list ascii.

Definition len {A : Type} (s : list A) : Z := Z.of_nat (length s).

(** [s[lo:hi]], with Python's treatment of negative and out-of-range
    bounds. *)
Definition clamp (n i : Z) : Z :=
  if i <? 0 then Z.max 0 (i + n) else Z.min i n.

Definition slice {A : Type} (s : list A) (lo hi : Z) : list A :=
  let l := clamp (len s) lo in
  let h := clamp (len s) hi in
  firstn (Z.to_nat (h - l)) (skipn (Z.to_nat l) s).

(** [s[i]] for an index that is not negative. *)
Definition getitem {A : Type} (s : list A) (i : nat) : result A :=
  match nth_error s i with
  | Some a => Ok a
  | None => Raise IndexError
  end.

(** The binary digits of a positive number, most significant first. *)
Fixpoint pos_digits (p : positive) : str :=
  match p with
  | xH => ["1"%char]
  | xO q => pos_digits q ++ ["0"%char]
  | xI q => pos_digits q ++ ["1"%char]
  end.

Definition zfill (w : nat) (s : str) : str :=
  repeat "0"%char (w - length s) ++ s.

(** [format(n, '0<w>b')]: binary, padded with zeros after the sign to
    [w] characters at least. *)
Definition format_b (w : nat) (n : Z) : str :=
  match n with
  | Z0 => zfill w ["0"%char]
  | Zpos p => zfill w (pos_digits p)
  | Zneg p => "-"%char :: zfill (w - 1) (pos_digits p)
  end.

(** [str(n)] of an [int]: its decimal numeral. *)
Definition str_of_int (n : Z) : str :=
  list_ascii_of_string (NilZero.string_of_int (Z.to_int n)).

(** The value of a digit of a base up to ten. *)
Definition digit (base : Z) (c : ascii) : option Z :=
  let d := Z.of_N (N_of_ascii c) - 48 in
  if (0 <=? d) && (d <? base) then Some d else None.

(** The [ValueError] of [int(s, base)].  Its text is Python's when the
    [repr] of [s] is [s] between single quotes, as it is for the empty
    string and for strings of letters and digits. *)
Definition invalid_literal (base : Z) (s : str) : exn :=
  ValueError
    (String.append "invalid literal for int() with base "
       (String.append (NilZero.string_of_int (Z.to_int base))
          (String.append ": '"
             (String.append (string_of_list_ascii s) "'")))).

(** The digits [s] of the literal [whole], read after those in [acc]. *)
Fixpoint int_digits (base : Z) (whole : str) (acc : Z) (s : str) : result Z :=
  match s with
  | [] => Ok acc
  | c :: s' =>
      match digit base c with
      | Some d => int_digits base whole (base * acc + d) s'
      | None => Raise (invalid_literal base whole)
      end
  end.

(** [int(s, base)] on the strings this program builds: a string of
    digits of the base gives its value, the empty string raises
    [ValueError].  Signs, blanks, underscores and base prefixes, which
    Python's [int] also reads, never occur in them; the model raises
    [ValueError] there, and every statement below is about strings of
    digits. *)
Definition int (s : str) (base : Z) : result Z :=
  match s with
  | [] => Raise (invalid_literal base s)
  | _ => int_digits base s 0 s
  end.

Definition ord (c : N) : Z := Z.of_N c.

Definition chr (n : Z) : result N :=
  if (0 <=? n) && (n <=? 1114111) then Ok (Z.to_N n)
  else Raise (ValueError "chr() arg not in range(0x110000)").

(** [range(start, stop, step)] for a positive step. *)
Fixpoint range_from (start step : Z) (count : nat) : list Z :=
  match count with
  | O => []
  | S c => start :: range_from (start + step) step c
  end.

Definition range (start stop step : Z) : list Z :=
  range_from start step (Z.to_nat ((stop - start + step - 1) / step)).

End Py.

(** A list comprehension whose body may raise. *)
Fixpoint mapM {A B : Type} (f : A -> result B) (l : list A) : result (list B) :=
  match l with
  | [] => Ok []
  | a :: l' =>
      (b <- f a ;;
       bs <- mapM f l' ;;
       Ok (b :: bs))%result
  end.

(** ** The bit framer *)

Definition text := list N.

(** Lines 6-14. *)
Definition message_to_bits (message : text) : Py.str :=
  let length := Py.len message in
  let length_bits := Py.format_b 32 length in
  let message_bits := concat (map (fun c => Py.format_b 8 (Py.ord c)) message) in
  length_bits ++ message_bits.

(** Lines 17-25. *)
Definition bits_to_message (bits : Py.str) : result text :=
  (length <- Py.int (Py.slice bits 0 32) 2 ;;
   let message_bits := Py.slice bits 32 (32 + length * 8) in
   chars <- mapM (fun i => n <- Py.int (Py.slice message_bits i (i + 8)) 2 ;; Py.chr n)
                 (Py.range 0 (Py.len message_bits) 8) ;;
   Ok chars)%result.

(** ** The raster *)

Definition pixel : Type := Z * Z * Z.

Record image : Type := mkImage {
  width : nat;
  height : nat;
  pixels : list pixel
}.

(** Computations on the pixel buffer of the image being processed. *)
Definition M (A : Type) : Type := list pixel -> result A * list pixel.

Definition ret {A : Type} (a : A) : M A := fun buf => (Ok a, buf).

Definition bind {A B : Type} (m : M A) (k : A -> M B) : M B :=
  fun buf =>
    match m buf with
    | (Ok a, buf') => k a buf'
    | (Raise e, buf') => (Raise e, buf')
    end.

Definition lift {A : Type} (r : result A) : M A := fun buf => (r, buf).

Declare Scope buffer_scope.
Delimit Scope buffer_scope with M.
Notation "x <- m ;; k" := (bind m (fun x => k))
  (at level 61, m at next level, right associativity) : buffer_scope.
Notation "' p <- m ;; k" := (bind m (fun x => match x with p => k end))
  (at level 61, p pattern, m at next level, right associativity) : buffer_scope.
Notation "m ;; k" := (bind m (fun _ => k))
  (at level 61, right associativity) : buffer_scope.

Fixpoint update {A : Type} (l : list A) (i : nat) (a : A) : list A :=
  match l, i with
  | [], _ => []
  | _ :: l', O => a :: l'
  | b :: l', S j => b :: update l' j a
  end.

(** [pixels[x, y]] of a [w] by [h] image, read. *)
Definition pixel_at (w h : nat) (buf : list pixel) (x y : nat) : result pixel :=
  if (x <? w)%nat && (y <? h)%nat then Py.getitem buf (y * w + x)
  else Raise IndexError.

Definition getpixel (w h x y : nat) : M pixel :=
  fun buf => (pixel_at w h buf x y, buf).

(** [pixels[x, y] = p]. *)
Definition putpixel (w h x y : nat) (p : pixel) : M unit :=
  fun buf =>
    if (x <? w)%nat && (y <? h)%nat && (y * w + x <? length buf)%nat
    then (Ok tt, update buf (y * w + x) p)
    else (Raise IndexError, buf).

(** [tuple(new_colors)], stored as a pixel. *)
Definition tuple3 (l : list Z) : result pixel :=
  match l with
  | [r; g; b] => Ok (r, g, b)
  | _ => Raise TypeError
  end.

(** ** Embedding: [hide_message_in_image] *)

Section Embed.

(** The image size, [bitstring] and [total_bits], which the loops read. *)
Variables (w h : nat) (bitstring : Py.str) (total_bits : nat).

(** Lines 51-58: the loop over the colours of one pixel. *)
Fixpoint embed_colours (colours new_colors : list Z) (bit_index : nat)
  : result (list Z * nat) :=
  match colours with
  | [] => Ok (new_colors, bit_index)
  | colour :: rest =>
      if (bit_index <? total_bits)%nat then
        (c <- Py.getitem bitstring bit_index ;;
         bit <- Py.int [c] 10 ;;
         let new_colour := Z.lor (Z.land colour (Z.lnot 1)) bit in
         embed_colours rest (new_colors ++ [new_colour]) (bit_index + 1))%result
      else
        embed_colours rest (new_colors ++ [colour]) bit_index
  end.

(** Lines 48-61: the loop over the columns of row [y], left by [break]
    once every bit is written. *)
Fixpoint embed_row (y : nat) (xs : list nat) (bit_index : nat) : M nat :=
  match xs with
  | [] => ret bit_index
  | x :: xs' =>
      ('(r, g, b) <- getpixel w h x y ;;
       '(new_colors, bit_index) <- lift (embed_colours [r; g; b] [] bit_index) ;;
       p <- lift (tuple3 new_colors) ;;
       putpixel w h x y p ;;
       if (total_bits <=? bit_index)%nat then ret bit_index
       else embed_row y xs' bit_index)%M
  end.

(** Lines 47-63: the loop over the rows. *)
Fixpoint embed_rows (ys : list nat) (bit_index : nat) : M nat :=
  match ys with
  | [] => ret bit_index
  | y :: ys' =>
      (bit_index <- embed_row y (seq 0 w) bit_index ;;
       if (total_bits <=? bit_index)%nat then ret bit_index
       else embed_rows ys' bit_index)%M
  end.

End Embed.

(** Lines 41-64 on the bit string: the capacity check, the scan and the
    raster that is saved.  The second component is the raster when the
    function is left; [img.save] writes it when nothing was raised. *)
Definition embed (img : image) (bitstring : Py.str) : result unit * image :=
  let width := width img in
  let height := height img in
  let total_bits := length bitstring in
  if (width * height * 3 <? total_bits)%nat then
    (Raise (ValueError "The message is too long for the selected image."), img)
  else
    match embed_rows width height bitstring total_bits (seq 0 height) 0 (pixels img) with
    | (Ok _, buf) => (Ok tt, mkImage width height buf)
    | (Raise e, buf) => (Raise e, mkImage width height buf)
    end.

(** Lines 28-64. *)
Definition hide_message_in_image (img : image) (message : text)
  : result unit * image :=
  embed img (message_to_bits message).

(** ** Extraction: [extract_message_from_image] *)

(** What a loop body does next: go on with a new state, or leave the
    function with a value. *)
Inductive flow (S R : Type) : Type :=
| Next (s : S)
| Return (r : R).

Arguments Next {S R} s.
Arguments Return {S R} r.

(** The variables [bits] and [message_length]. *)
Definition scan_state : Type := Py.str * option Z.

(** Lines 82-89 for one colour.  The function leaves with
    [relevant_bits]; [bits_to_message] is applied to it by
    [extract_message_from_image] below. *)
Definition extract_colour (colour : Z) (st : scan_state)
  : result (flow scan_state Py.str) :=
  let '(bits, message_length) := st in
  let bits := bits ++ Py.str_of_int (Z.land colour 1) in
  (message_length <-
     match message_length with
     | None =>
         if (length bits =? 32)%nat
         then (n <- Py.int bits 2 ;; Ok (Some n))
         else Ok None
     | Some _ => Ok message_length
     end ;;
   match message_length with
   | Some n =>
       let total_needed := 32 + n * 8 in
       if total_needed <=? Py.len bits
       then Ok (Return (Py.slice bits 0 total_needed))
       else Ok (Next (bits, message_length))
   | None => Ok (Next (bits, message_length))
   end)%result.

(** Line 81: the loop over the colours of one pixel. *)
Fixpoint extract_colours (colours : list Z) (st : scan_state)
  : result (flow scan_state Py.str) :=
  match colours with
  | [] => Ok (Next st)
  | colour :: rest =>
      (f <- extract_colour colour st ;;
       match f with
       | Next st' => extract_colours rest st'
       | Return r => Ok (Return r)
       end)%result
  end.

Section Extract.

Variables (w h : nat) (buf : list pixel).

(** Line 80: the loop over the columns of row [y]. *)
Fixpoint extract_row (y : nat) (xs : list nat) (st : scan_state)
  : result (flow scan_state Py.str) :=
  match xs with
  | [] => Ok (Next st)
  | x :: xs' =>
      ('(r, g, b) <- pixel_at w h buf x y ;;
       f <- extract_colours [r; g; b] st ;;
       match f with
       | Next st' => extract_row y xs' st'
       | Return r => Ok (Return r)
       end)%result
  end.

(** Line 79: the loop over the rows. *)
Fixpoint extract_rows (ys : list nat) (st : scan_state)
  : result (flow scan_state Py.str) :=
  match ys with
  | [] => Ok (Next st)
  | y :: ys' =>
      (f <- extract_row y (seq 0 w) st ;;
       match f with
       | Next st' => extract_rows ys' st'
       | Return r => Ok (Return r)
       end)%result
  end.

End Extract.

(** Lines 77-89: the scan.  [Return relevant_bits] when the declared
    number of bits was read, [Next] with the last state when the loops
    ran to their end. *)
Definition extract_scan (img : image) : result (flow scan_state Py.str) :=
  extract_rows (width img) (height img) (pixels img)
               (seq 0 (height img)) ([], None).

(** Lines 67-90. *)
Definition extract_message_from_image (img : image) : result text :=
  (f <- extract_scan img ;;
   match f with
   | Return relevant_bits => bits_to_message relevant_bits
   | Next _ => Ok []
   end)%result.

(** A 4 by 4 raster: 48 channels. *)
Definition raster_4x4 : image :=
  mkImage 4 4
    [ (255, 254, 3); (0, 1, 2); (17, 16, 200); (9, 9, 9);
      (128, 127, 64); (33, 32, 31); (5, 6, 7); (250, 251, 252);
      (1, 1, 1); (0, 0, 0); (77, 78, 79); (100, 101, 102);
      (13, 14, 15); (254, 255, 0); (42, 43, 44); (8, 16, 24) ].

(** ** Definitions the statements use *)

Definition is_bit (c : ascii) : bool :=
  Ascii.eqb c "0" || Ascii.eqb c "1".

(** A bit string: a [str] of the characters '0' and '1'. *)
Definition bit_string (s : Py.str) : Prop := forallb is_bit s = true.

(** The bit a character of a bit string stands for. *)
Definition bit_value (c : ascii) : Z := if Ascii.eqb c "1" then 1 else 0.

(** The value of a bit string read in base two, most significant bit
    first, after the digits already in [acc]. *)
Fixpoint bits_value (acc : Z) (s : Py.str) : Z :=
  match s with
  | [] => acc
  | c :: s' => bits_value (2 * acc + bit_value c) s'
  end.

Definition bit_char (b : bool) : ascii := if b then "1"%char else "0"%char.

(** [n] in [w]-bit big-endian unsigned binary: bit [w - 1] first. *)
Definition be_binary (w : nat) (n : Z) : Py.str :=
  map (fun i => bit_char (Z.testbit n (Z.of_nat (w - 1 - i)))) (seq 0 w).

Arguments be_binary : simpl never.

(** A payload whose characters all have code points in 0-255. *)
Definition code_points_8bit (message : text) : Prop :=
  forallb (fun c => (c <=? 255)%N) message = true.

(** The frame of a payload in the words of the format: the length in
    32-bit big-endian binary, then every code point in 8-bit big-endian
    binary, in payload order. *)
Definition frame (message : text) : Py.str :=
  be_binary 32 (Py.len message) ++
  concat (map (fun c => be_binary 8 (Z.of_N c)) message).

(** The channels of a pixel buffer in scan order: row-major, and
    R, G, B within a pixel. *)
Definition channels (buf : list pixel) : list Z :=
  flat_map (fun p : pixel => let '(r, g, b) := p in [r; g; b]) buf.

Definition lsb_char (colour : Z) : ascii := bit_char (Z.odd colour).

(** The least significant bits of the channels, in scan order. *)
Definition lsbs (buf : list pixel) : Py.str := map lsb_char (channels buf).

Definition capacity (img : image) : nat := width img * height img * 3.

Definition is_byte (c : Z) : bool := (0 <=? c) && (c <? 256).

(** An RGB raster: one pixel for every position, 8-bit channels. *)
Definition rgb_raster (img : image) : Prop :=
  length (pixels img) = (width img * height img)%nat /\
  forallb is_byte (channels (pixels img)) = true.

(** What the scan makes of the least significant bits [s] of the
    channels it visits when their supply does not end before it
    returns: the first 32 of them declare the length, and the scan
    leaves with the declared frame as soon as it has it. *)
Definition scan_of (s : Py.str) : result (flow scan_state Py.str) :=
  if (length s <? 32)%nat then Ok (Next (s, None))
  else
    (n <- Py.int (firstn 32 s) 2 ;;
     if 32 + n * 8 <=? Py.len s
     then Ok (Return (firstn (Z.to_nat (32 + n * 8)) s))
     else Ok (Next (s, Some n)))%result.

(** The loops are to visit [need] pixels and the buffer holds [got] of
    them: going on after the last one raises [IndexError]. *)
Definition reading (need got : nat) (r : result (flow scan_state Py.str))
  : result (flow scan_state Py.str) :=
  match r with
  | Ok (Next _) => if (got <? need)%nat then Raise IndexError else r
  | _ => r
  end.

(** What embedding [bitstring] makes of the colour at scan position
    [i]: its least significant bit replaced by bit [i] of the string,
    when the string has one. *)
Definition embed_at (bitstring : Py.str) (i : nat) (colour : Z) : Z :=
  match nth_error bitstring i with
  | Some c => Z.lor (Z.land colour (Z.lnot 1)) (bit_value c)
  | None => colour
  end.

Fixpoint embed_channels (bitstring : Py.str) (i : nat) (cs : list Z) : list Z :=
  match cs with
  | [] => []
  | c :: cs' => embed_at bitstring i c :: embed_channels bitstring (S i) cs'
  end.

(** The same on pixels, [k] being the index of the first one. *)
Fixpoint embed_pixels (bitstring : Py.str) (k : nat) (ps : list pixel)
  : list pixel :=
  match ps with
  | [] => []
  | (r, g, b) :: ps' =>
      (embed_at bitstring (3 * k) r,
       embed_at bitstring (S (3 * k)) g,
       embed_at bitstring (S (S (3 * k))) b)
      :: embed_pixels bitstring (S k) ps'
  end.

(** Flipping the least significant bit of the channel at scan position
    [i]. *)
Definition flip_channel (c : nat) (p : pixel) : pixel :=
  let '(r, g, b) := p in
  match c with
  | 0%nat => (Z.lxor r 1, g, b)
  | 1%nat => (r, Z.lxor g 1, b)
  | _ => (r, g, Z.lxor b 1)
  end.

Definition flip_lsb (i : nat) (img : image) : image :=
  match nth_error (pixels img) (i / 3) with
  | Some p =>
      mkImage (width img) (height img)
              (update (pixels img) (i / 3) (flip_channel (i mod 3) p))
  | None => img
  end.

(** A 2 by 2 raster: 12 channels. *)
Definition raster_2x2 : image :=
  mkImage 2 2 [ (10, 20, 30); (40, 50, 60); (70, 80, 90); (100, 110, 120) ].

(** A raster of one pixel. *)
Definition raster_1x1 : image := mkImage 1 1 [(255, 255, 255)].

(** The carrier of "A" in the 4 by 4 raster. *)
Definition carrier_A : image := snd (hide_message_in_image raster_4x4 [65%N]).

(** ** The image files and the window: [SteganographyApp]

    The handlers of the window call the two functions above with the
    paths the file dialogs return.  A dialog's answer and the content of
    the text widget are arguments of the handler; the message boxes it
    shows are its result.  [Image.open] followed by the conversion to
    RGB reads the raster stored under a path and fails on a path that
    holds none.  What [img.save] writes is the image library's matter
    and is a parameter of the model, see [ImageFiles] below. *)

Definition file_path : Type := string.

Bind Scope string_scope with file_path.

(** What opening a path gives. *)
Definition files : Type := file_path -> option image.

Definition store (fs : files) (p : file_path) (content : option image) : files :=
  fun q => if String.eqb q p then content else fs q.

(** What leaves a function that works on files: an exception of the
    codec, the one [Image.open] raises on a missing file, or one of
    the file system or of an encoder. *)
Inductive failure : Type :=
| Raised (e : exn)
| FileNotFoundError (filename : file_path)
| OSError (msg : string).

Inductive outcome (A : Type) : Type :=
| Done (a : A)
| Failed (f : failure).

Arguments Done {A} a.
Arguments Failed {A} f.

(** Lines 67-90 with the path. *)
Definition extract_message_from_image_file (fs : files) (image_path : file_path)
  : outcome text :=
  match fs image_path with
  | None => Failed (FileNotFoundError image_path)
  | Some img =>
      match extract_message_from_image img with
      | Ok message => Done message
      | Raise e => Failed (Raised e)
      end
  end.

(** [s.rstrip("\n")]. *)
Fixpoint rstrip_newline (s : text) : text :=
  match s with
  | [] => []
  | c :: s' =>
      match rstrip_newline s' with
      | [] => if (c =? 10)%N then [] else [c]
      | r => c :: r
      end
  end.

Definition text_of_string (s : string) : text :=
  map N_of_ascii (list_ascii_of_string s).

(** The attributes of the window that the handlers read and set;
    [extract_result] is the text of the result label. *)
Record SteganographyApp : Type := mkApp {
  hide_image_path : option file_path;
  extract_image_path : option file_path;
  extract_result : text
}.

(** Lines 109-110 and 123. *)
Definition app_init : SteganographyApp := mkApp None None [].

Inductive box : Type :=
| showerror (title message : string)
| showerror_exception (title : string) (e : failure)
| showinfo (title message : string).

(** The truth value of a path attribute: [None] and the empty string
    are false. *)
Definition chosen_path (p : option file_path) : option file_path :=
  match p with
  | Some EmptyString => None
  | _ => p
  end.

(** Lines 129-132; [path] is the answer of the open dialog, empty when
    it was cancelled. *)
Definition load_hide_image (a : SteganographyApp) (path : file_path) : SteganographyApp :=
  match path with
  | EmptyString => a
  | _ => mkApp (Some path) (extract_image_path a) (extract_result a)
  end.

(** Lines 150-153. *)
Definition load_extract_image (a : SteganographyApp) (path : file_path) : SteganographyApp :=
  match path with
  | EmptyString => a
  | _ => mkApp (hide_image_path a) (Some path) (extract_result a)
  end.

Section ImageFiles.

(** [img.save(output_path)], line 64.  The library picks the file
    format from the extension of the path: [img_save output_path img] is
    [Failed] with the exception it raises (an unknown extension, a file
    that cannot be written, an encoder error), or [Done] with the raster
    that opening the written file gives, which is [img] for a lossless
    format such as PNG and another raster for a lossy one such as JPEG.
    When it raises, the output file may be left damaged:
    [left_after_failure output_path img before] is what the path holds
    then, [before] being what it held. *)
Variable img_save : file_path -> image -> outcome image.
Variable left_after_failure : file_path -> image -> option image -> option image.

Definition save (fs : files) (output_path : file_path) (img : image)
  : outcome unit * files :=
  match img_save output_path img with
  | Done written => (Done tt, store fs output_path (Some written))
  | Failed e =>
      (Failed e,
       store fs output_path (left_after_failure output_path img (fs output_path)))
  end.

(** Lines 28-64 with the paths: lines 34-38 open the image, line 64
    saves it. *)
Definition hide_message_in_image_file
           (fs : files) (image_path : file_path) (message : text)
           (output_path : file_path)
  : outcome unit * files :=
  match fs image_path with
  | None => (Failed (FileNotFoundError image_path), fs)
  | Some img =>
      match hide_message_in_image img message with
      | (Ok _, carrier) => save fs output_path carrier
      | (Raise e, _) => (Failed (Raised e), fs)
      end
  end.

(** Lines 134-148; [got] is the content of the text widget and
    [output_path] the answer of the save dialog.  The handler sets no
    attribute: its result is the boxes it shows and the files it
    leaves. *)
Definition save_hidden_image
           (a : SteganographyApp) (got : text) (output_path : file_path) (fs : files)
  : list box * files :=
  match chosen_path (hide_image_path a) with
  | None => ([showerror "Error" "Please load an image first."], fs)
  | Some image_path =>
      let message := rstrip_newline got in
      match message with
      | [] => ([showerror "Error" "Please enter a message to hide."], fs)
      | _ =>
          match output_path with
          | EmptyString => ([], fs)
          | _ =>
              match hide_message_in_image_file fs image_path message output_path with
              | (Done _, fs') =>
                  ([showinfo "Success"
                             "Message hidden and image saved successfully."],
                   fs')
              | (Failed e, fs') => ([showerror_exception "Error" e], fs')
              end
          end
      end
  end.

End ImageFiles.

(** Lines 155-163.  An exception of the extraction is not caught: it
    leaves the handler. *)
Definition decrypt_message (a : SteganographyApp) (fs : files) : outcome (SteganographyApp * list box) :=
  match chosen_path (extract_image_path a) with
  | None => Done (a, [showerror "Error" "Please load an image first."])
  | Some image_path =>
      match extract_message_from_image_file fs image_path with
      | Failed f => Failed f
      | Done message =>
          match message with
          | [] =>
              Done (mkApp (hide_image_path a) (extract_image_path a)
                          (text_of_string "No hidden message found."),
                    [])
          | _ =>
              Done (mkApp (hide_image_path a) (extract_image_path a) message,
                    [])
          end
      end
  end.

(** An image library that writes [out.png] as it is and no other
    file, and leaves what it does not write as it was. *)
Definition img_save_sample (output_path : file_path) (img : image)
  : outcome image :=
  if String.eqb output_path "out.png" then Done img
  else Failed (OSError "not written").

Definition left_untouched (output_path : file_path) (img : image)
           (before : option image) : option image := before.

(** One image file, holding the 4 by 4 raster. *)
Definition files_4x4 : files :=
  fun q => if String.eqb q "in.png" then Some raster_4x4 else None.

(** * Properties *)

(** ** The functions on small inputs *)

Example message_to_bits_A :
  message_to_bits [65%N]
  = list_ascii_of_string "0000000000000000000000000000000101000001".
Proof. reflexivity. Qed.

Example message_to_bits_empty :
  message_to_bits [] = list_ascii_of_string "00000000000000000000000000000000".
Proof. reflexivity. Qed.

Example bits_to_message_A :
  bits_to_message
    (list_ascii_of_string "0000000000000000000000000000000101000001")
  = Ok [65%N].
Proof. reflexivity. Qed.

Example bits_to_message_no_bits :
  bits_to_message []
  = Raise (ValueError "invalid literal for int() with base 2: ''").
Proof. reflexivity. Qed.

Example hide_A_2x2 :
  hide_message_in_image raster_2x2 [65%N]
  = (Raise (ValueError "The message is too long for the selected image."),
     raster_2x2).
Proof. reflexivity. Qed.

Example hide_A_4x4 :
  pixels carrier_A
  = [ (254, 254, 2); (0, 0, 2); (16, 16, 200); (8, 8, 8);
      (128, 126, 64); (32, 32, 30); (4, 6, 6); (250, 250, 252);
      (0, 0, 0); (0, 0, 0); (76, 79, 78); (101, 100, 102);
      (12, 14, 14); (255, 255, 0); (42, 43, 44); (8, 16, 24) ].
Proof. reflexivity. Qed.

Example extract_A_4x4 : extract_message_from_image carrier_A = Ok [65%N].
Proof. reflexivity. Qed.

Example hide_extract_empty_4x4 :
  extract_message_from_image (snd (hide_message_in_image raster_4x4 []))
  = Ok [].
Proof. reflexivity. Qed.

Example extract_2x2 : extract_message_from_image raster_2x2 = Ok [].
Proof. reflexivity. Qed.


(** ** Slices *)

Lemma slice_nonneg {A : Type} (s : list A) (lo hi : Z) :
  0 <= lo -> 0 <= hi ->
  Py.slice s lo hi = firstn (Z.to_nat hi - Z.to_nat lo) (skipn (Z.to_nat lo) s).
Proof.
  intros Hlo Hhi. cbv beta zeta delta [Py.slice Py.clamp Py.len].
  destruct (Z.ltb_spec lo 0) as [|_]; [lia|].
  destruct (Z.ltb_spec hi 0) as [|_]; [lia|].
  destruct (Z.le_gt_cases (Z.of_nat (length s)) lo) as [Hout|Hin].
  - rewrite skipn_all2 by lia. rewrite (skipn_all2 (n:=Z.to_nat lo)) by lia.
    now rewrite !firstn_nil.
  - rewrite (Z.min_l lo) by lia.
    destruct (Z.le_gt_cases hi (Z.of_nat (length s))) as [Hh|Hh].
    + f_equal. lia.
    + rewrite !firstn_all2; trivial; rewrite length_skipn; lia.
Qed.

Lemma slice_prefix {A : Type} (s : list A) (n : nat) :
  Py.slice s 0 (Z.of_nat n) = firstn n s.
Proof.
  rewrite slice_nonneg by lia. simpl. now rewrite Nat.sub_0_r, Nat2Z.id.
Qed.

Lemma slice_app_exact {A : Type} (a b c : list A) (lo hi : Z) :
  lo = Py.len a -> hi = lo + Py.len b ->
  Py.slice (a ++ b ++ c) lo hi = b.
Proof.
  unfold Py.len. intros -> ->. rewrite slice_nonneg by lia.
  rewrite Nat2Z.id.
  replace (Z.to_nat (Z.of_nat (length a) + Z.of_nat (length b)) - length a)%nat
    with (length b) by lia.
  rewrite skipn_app, skipn_all, Nat.sub_diag. simpl.
  rewrite firstn_app, firstn_all, Nat.sub_diag. simpl. apply app_nil_r.
Qed.

(** ** Bit strings *)

Lemma is_bit_cases (c : ascii) :
  is_bit c = true -> c = "0"%char \/ c = "1"%char.
Proof.
  unfold is_bit. intros H. apply orb_true_iff in H.
  destruct H as [H|H]; apply Ascii.eqb_eq in H; auto.
Qed.

Lemma bit_string_Forall (s : Py.str) :
  bit_string s <-> Forall (fun c => is_bit c = true) s.
Proof. unfold bit_string. now rewrite forallb_forall, Forall_forall. Qed.

Lemma bit_string_app (s t : Py.str) :
  bit_string (s ++ t) <-> bit_string s /\ bit_string t.
Proof.
  unfold bit_string. rewrite forallb_app. apply andb_true_iff.
Qed.

Lemma bit_string_cons (c : ascii) (s : Py.str) :
  bit_string (c :: s) <-> is_bit c = true /\ bit_string s.
Proof. unfold bit_string. simpl. apply andb_true_iff. Qed.

Lemma bit_string_firstn (n : nat) (s : Py.str) :
  bit_string s -> bit_string (firstn n s).
Proof.
  intros H. rewrite <- (firstn_skipn n s) in H.
  now apply bit_string_app in H.
Qed.

Lemma bit_string_skipn (n : nat) (s : Py.str) :
  bit_string s -> bit_string (skipn n s).
Proof.
  intros H. rewrite <- (firstn_skipn n s) in H.
  now apply bit_string_app in H.
Qed.

Lemma bit_string_repeat_0 (n : nat) : bit_string (repeat "0"%char n).
Proof. induction n; [reflexivity|]. simpl. now apply bit_string_cons. Qed.

Lemma is_bit_bit_char (b : bool) : is_bit (bit_char b) = true.
Proof. now destruct b. Qed.

Lemma digit_bit (c : ascii) (base : Z) :
  is_bit c = true -> 2 <= base -> Py.digit base c = Some (bit_value c).
Proof.
  intros H Hb. unfold Py.digit.
  destruct (is_bit_cases c H) as [-> | ->]; simpl.
  - destruct (Z.ltb_spec 0 base); [reflexivity|lia].
  - destruct (Z.ltb_spec 1 base); [reflexivity|lia].
Qed.

Lemma bit_value_range (c : ascii) : 0 <= bit_value c <= 1.
Proof. unfold bit_value. destruct (Ascii.eqb c "1"); lia. Qed.

(** ** [int] on bit strings *)

Lemma int_digits_bits (whole s : Py.str) (acc : Z) :
  bit_string s -> Py.int_digits 2 whole acc s = Ok (bits_value acc s).
Proof.
  revert acc. induction s as [|c s IH]; intros acc H; [reflexivity|].
  apply bit_string_cons in H. destruct H as [Hc Hs].
  simpl. rewrite (digit_bit c 2 Hc) by lia. now apply IH.
Qed.

Lemma int_bits (s : Py.str) :
  bit_string s -> s <> [] -> Py.int s 2 = Ok (bits_value 0 s).
Proof.
  intros H Hne. destruct s; [contradiction|].
  unfold Py.int. now apply int_digits_bits.
Qed.

Lemma bits_value_app (s t : Py.str) (acc : Z) :
  bits_value acc (s ++ t) = bits_value (bits_value acc s) t.
Proof. revert acc. induction s; intros; simpl; auto. Qed.

Lemma bits_value_bounds (s : Py.str) (acc : Z) :
  0 <= acc ->
  acc * 2 ^ Z.of_nat (length s) <= bits_value acc s
  < (acc + 1) * 2 ^ Z.of_nat (length s).
Proof.
  revert acc. induction s as [|c s IH]; intros acc Hacc.
  - simpl. lia.
  - cbn [bits_value length]. rewrite Nat2Z.inj_succ, Z.pow_succ_r by lia.
    pose proof (bit_value_range c) as Hc.
    specialize (IH (2 * acc + bit_value c) ltac:(lia)).
    pose proof (Z.pow_pos_nonneg 2 (Z.of_nat (length s)) ltac:(lia) ltac:(lia)).
    nia.
Qed.

Lemma bits_value_repeat_0 (n : nat) (s : Py.str) :
  bits_value 0 (repeat "0"%char n ++ s) = bits_value 0 s.
Proof. induction n; simpl; auto. Qed.

(** ** Binary formatting *)

Lemma be_binary_length (w : nat) (n : Z) : length (be_binary w n) = w.
Proof. unfold be_binary. now rewrite length_map, length_seq. Qed.

Lemma be_binary_bit_string (w : nat) (n : Z) : bit_string (be_binary w n).
Proof.
  apply bit_string_Forall, Forall_forall. intros c Hc.
  apply in_map_iff in Hc. destruct Hc as [i [<- _]]. apply is_bit_bit_char.
Qed.

(** The last digit is the parity, the digits before it are those of
    the half. *)
Lemma be_binary_succ (w : nat) (n : Z) :
  be_binary (S w) n = be_binary w (Z.div2 n) ++ [bit_char (Z.odd n)].
Proof.
  unfold be_binary. rewrite seq_S, map_app. f_equal.
  - apply map_ext_in. intros i Hi. apply in_seq in Hi. f_equal.
    replace (S w - 1 - i)%nat with (S (w - 1 - i)) by lia.
    rewrite Nat2Z.inj_succ, Z.div2_div. symmetry. apply Z.div2_bits. lia.
  - simpl. replace (w - 0 - w)%nat with 0%nat by lia.
    reflexivity.
Qed.

Lemma be_binary_0 (w : nat) : be_binary w 0 = repeat "0"%char w.
Proof.
  induction w as [|w IH]; [reflexivity|].
  rewrite be_binary_succ. change (Z.div2 0) with 0. rewrite IH.
  change (bit_char (Z.odd 0)) with "0"%char. now rewrite <- repeat_cons.
Qed.

Lemma pos_lt_pow2_succ (q : positive) (w : nat) (b : Z) :
  0 <= b -> 2 * Z.pos q + b < 2 ^ Z.of_nat (S w) -> Z.pos q < 2 ^ Z.of_nat w.
Proof. rewrite Nat2Z.inj_succ, Z.pow_succ_r by lia. lia. Qed.

Lemma zfill_snoc (w : nat) (s : Py.str) (c : ascii) :
  Py.zfill (S w) (s ++ [c]) = Py.zfill w s ++ [c].
Proof.
  unfold Py.zfill. rewrite length_app, Nat.add_1_r. simpl.
  now rewrite app_assoc.
Qed.

Lemma zfill_pos_be_binary (p : positive) (w : nat) :
  Z.pos p < 2 ^ Z.of_nat w ->
  Py.zfill w (Py.pos_digits p) = be_binary w (Z.pos p).
Proof.
  revert w. induction p as [q IH|q IH|]; intros [|w] H;
    try (simpl in H; lia).
  - cbn [Py.pos_digits]. rewrite zfill_snoc, be_binary_succ. simpl.
    rewrite IH; trivial.
    apply (pos_lt_pow2_succ q w 1); [lia|]. now rewrite <- Pos2Z.inj_xI.
  - cbn [Py.pos_digits]. rewrite zfill_snoc, be_binary_succ. simpl.
    rewrite IH; trivial.
    apply (pos_lt_pow2_succ q w 0); [lia|].
    now rewrite Z.add_0_r, <- Pos2Z.inj_xO.
  - rewrite be_binary_succ, be_binary_0. simpl.
    unfold Py.zfill. simpl. now rewrite Nat.sub_0_r.
Qed.

(** [format(n, '0<w>b')] of a number that fits [w] bits is its [w]-bit
    big-endian binary. *)
Lemma format_b_be_binary (w : nat) (n : Z) :
  (1 <= w)%nat -> 0 <= n < 2 ^ Z.of_nat w ->
  Py.format_b w n = be_binary w n.
Proof.
  intros Hw [Hn Hlt]. destruct n as [|p|p]; [|now apply zfill_pos_be_binary|lia].
  rewrite be_binary_0. unfold Py.format_b, Py.zfill. simpl.
  destruct w as [|w]; [lia|]. simpl. rewrite Nat.sub_0_r.
  now rewrite <- repeat_cons.
Qed.

Lemma pos_digits_bit_string (p : positive) : bit_string (Py.pos_digits p).
Proof.
  induction p; simpl; try apply bit_string_app; try split; trivial; reflexivity.
Qed.

Lemma pos_digits_value (p : positive) : bits_value 0 (Py.pos_digits p) = Z.pos p.
Proof.
  induction p as [q IH|q IH|]; simpl; trivial;
    rewrite bits_value_app, IH; reflexivity.
Qed.

Lemma format_b_bit_string (w : nat) (n : Z) :
  0 <= n -> bit_string (Py.format_b w n).
Proof.
  intros Hn. destruct n as [|p|p]; [| |lia]; unfold Py.format_b, Py.zfill;
    apply bit_string_app; split; try apply bit_string_repeat_0.
  - reflexivity.
  - apply pos_digits_bit_string.
Qed.

Lemma format_b_value (w : nat) (n : Z) :
  0 <= n -> bits_value 0 (Py.format_b w n) = n.
Proof.
  intros Hn. destruct n as [|p|p]; [| |lia]; unfold Py.format_b, Py.zfill;
    rewrite bits_value_repeat_0.
  - reflexivity.
  - apply pos_digits_value.
Qed.

(** A number that does not fit [w] bits is printed with all its
    digits. *)
Lemma format_b_wide (w : nat) (n : Z) :
  2 ^ Z.of_nat w <= n -> (w < length (Py.format_b w n))%nat.
Proof.
  intros H.
  assert (0 < 2 ^ Z.of_nat w) by (apply Z.pow_pos_nonneg; lia).
  destruct n as [|p|p]; try lia.
  unfold Py.format_b, Py.zfill. rewrite length_app, repeat_length.
  pose proof (bits_value_bounds (Py.pos_digits p) 0 ltac:(lia)) as Hb.
  rewrite pos_digits_value in Hb.
  destruct (Nat.le_gt_cases (length (Py.pos_digits p)) w) as [Hle|]; [|lia].
  assert (2 ^ Z.of_nat (length (Py.pos_digits p)) <= 2 ^ Z.of_nat w)
    by (apply Z.pow_le_mono_r; lia).
  lia.
Qed.

(** ** The bit framer *)

Lemma be_binary_value (w : nat) (n : Z) :
  (1 <= w)%nat -> 0 <= n < 2 ^ Z.of_nat w ->
  bits_value 0 (be_binary w n) = n.
Proof.
  intros Hw Hn. rewrite <- format_b_be_binary by trivial.
  apply format_b_value. lia.
Qed.

Lemma int_be_binary (w : nat) (n : Z) :
  (1 <= w)%nat -> 0 <= n < 2 ^ Z.of_nat w ->
  Py.int (be_binary w n) 2 = Ok n.
Proof.
  intros Hw Hn. rewrite int_bits.
  - now rewrite be_binary_value.
  - apply be_binary_bit_string.
  - intros E. apply (f_equal (@length ascii)) in E.
    rewrite be_binary_length in E. simpl in E. lia.
Qed.

Lemma code_points_8bit_cons (c : N) (p : text) :
  code_points_8bit (c :: p) <-> (c <= 255)%N /\ code_points_8bit p.
Proof.
  unfold code_points_8bit. simpl. rewrite andb_true_iff, N.leb_le. tauto.
Qed.

Lemma payload_bits_bit_string (p : text) :
  bit_string (concat (map (fun c => Py.format_b 8 (Py.ord c)) p)).
Proof.
  induction p as [|c p IH]; [reflexivity|]. cbn [map concat].
  apply bit_string_app. split; trivial.
  apply format_b_bit_string. unfold Py.ord. lia.
Qed.

Lemma message_to_bits_bit_string (p : text) : bit_string (message_to_bits p).
Proof.
  unfold message_to_bits. apply bit_string_app. split.
  - apply format_b_bit_string. unfold Py.len. lia.
  - apply payload_bits_bit_string.
Qed.

Lemma payload_bits_frame (p : text) :
  code_points_8bit p ->
  concat (map (fun c => Py.format_b 8 (Py.ord c)) p)
  = concat (map (fun c => be_binary 8 (Z.of_N c)) p).
Proof.
  induction p as [|c p IH]; intros H; [reflexivity|].
  apply code_points_8bit_cons in H. destruct H as [Hc Hp].
  cbn [map concat]. rewrite IH by trivial. f_equal.
  apply format_b_be_binary; [lia|]. unfold Py.ord.
  change (2 ^ Z.of_nat 8) with 256. lia.
Qed.

Lemma message_to_bits_frame (p : text) :
  code_points_8bit p -> Py.len p < 2 ^ 32 -> message_to_bits p = frame p.
Proof.
  intros Hp Hlen. unfold message_to_bits, frame.
  rewrite payload_bits_frame by trivial. f_equal.
  apply format_b_be_binary; [lia|]. unfold Py.len in *.
  change (Z.of_nat 32) with 32. lia.
Qed.

Lemma payload_frame_length (p : text) :
  length (concat (map (fun c => be_binary 8 (Z.of_N c)) p)) = (8 * length p)%nat.
Proof.
  induction p as [|c p IH]; [reflexivity|].
  cbn [map concat]. rewrite length_app, be_binary_length, IH. simpl. lia.
Qed.

Lemma frame_length (p : text) : length (frame p) = (32 + 8 * length p)%nat.
Proof.
  unfold frame. now rewrite length_app, be_binary_length, payload_frame_length.
Qed.

Lemma chr_ord (c : N) : (c <= 255)%N -> Py.chr (Z.of_N c) = Ok c.
Proof.
  intros H. unfold Py.chr.
  destruct (Z.leb_spec 0 (Z.of_N c)); [|lia].
  destruct (Z.leb_spec (Z.of_N c) 1114111); [|lia].
  simpl. now rewrite N2Z.id.
Qed.

(** Reading the payload bits back in groups of eight, from offset [k]. *)
Lemma decode_groups (p : text) (pre : Py.str) (k : Z) :
  code_points_8bit p -> k = Py.len pre ->
  let message_bits := pre ++ concat (map (fun c => be_binary 8 (Z.of_N c)) p) in
  mapM (fun i => n <- Py.int (Py.slice message_bits i (i + 8)) 2 ;; Py.chr n)%result
       (Py.range_from k 8 (length p))
  = Ok p.
Proof.
  revert pre k. induction p as [|c p IH]; intros pre k Hp Hk; [reflexivity|].
  apply code_points_8bit_cons in Hp. destruct Hp as [Hc Hp].
  cbn [map concat length Py.range_from mapM].
  rewrite (slice_app_exact pre (be_binary 8 (Z.of_N c)))
    by (trivial; unfold Py.len; rewrite be_binary_length; lia).
  rewrite int_be_binary by (change (2 ^ Z.of_nat 8) with 256; lia).
  cbn [rbind]. rewrite chr_ord by trivial. cbn [rbind].
  specialize (IH (pre ++ be_binary 8 (Z.of_N c)) (k + 8) Hp).
  cbv zeta in IH. rewrite <- app_assoc in IH. rewrite IH; [reflexivity|].
  unfold Py.len in *. rewrite length_app, be_binary_length. lia.
Qed.

Lemma range_groups (n : nat) :
  Py.range 0 (Z.of_nat (8 * n)) 8 = Py.range_from 0 8 n.
Proof.
  unfold Py.range. f_equal.
  replace (Z.of_nat (8 * n) - 0 + 8 - 1) with (Z.of_nat n * 8 + 7) by lia.
  rewrite Z.div_add_l by lia. change (7 / 8) with 0. lia.
Qed.

Lemma bits_to_message_frame (p : text) :
  code_points_8bit p -> Py.len p < 2 ^ 32 ->
  bits_to_message (frame p) = Ok p.
Proof.
  intros Hp Hlen. unfold bits_to_message.
  set (body := concat (map (fun c => be_binary 8 (Z.of_N c)) p)).
  assert (Hbody : length body = (8 * length p)%nat)
    by apply payload_frame_length.
  assert (H32 : Py.slice (frame p) 0 32 = be_binary 32 (Py.len p)).
  { change 32 with (Z.of_nat 32). rewrite slice_prefix. unfold frame.
    rewrite firstn_app, be_binary_length, Nat.sub_diag. simpl firstn at 2.
    rewrite app_nil_r. apply firstn_all2. now rewrite be_binary_length. }
  rewrite H32, int_be_binary
    by (unfold Py.len in *; change (Z.of_nat 32) with 32; lia).
  cbn [rbind].
  assert (Hmsg : Py.slice (frame p) 32 (32 + Py.len p * 8) = body).
  { unfold frame. fold body. rewrite <- (app_nil_r body) at 1.
    apply slice_app_exact; unfold Py.len; rewrite ?be_binary_length; lia. }
  rewrite Hmsg. unfold Py.len at 1. rewrite Hbody, range_groups.
  pose proof (decode_groups p [] 0 Hp eq_refl) as Hd. cbv zeta in Hd.
  simpl app in Hd. fold body in Hd. now rewrite Hd.
Qed.

Lemma int_digits_nonneg (whole s : Py.str) (acc n : Z) :
  0 <= acc -> Py.int_digits 2 whole acc s = Ok n -> 0 <= n.
Proof.
  revert acc. induction s as [|c s IH]; intros acc Hacc H;
    cbn [Py.int_digits] in H.
  - injection H as <-. trivial.
  - unfold Py.digit in H.
    destruct (0 <=? Z.of_N (N_of_ascii c) - 48) eqn:E1; [|discriminate].
    destruct (Z.of_N (N_of_ascii c) - 48 <? 2) eqn:E2; [|discriminate].
    cbn [andb] in H. apply IH in H; trivial. apply Z.leb_le in E1. lia.
Qed.

Lemma int_nonneg (s : Py.str) (n : Z) : Py.int s 2 = Ok n -> 0 <= n.
Proof.
  destruct s; [discriminate|]. unfold Py.int.
  apply int_digits_nonneg. lia.
Qed.

(** A bit string is the big-endian binary of its value. *)
Lemma be_binary_bits_value (s : Py.str) :
  bit_string s -> be_binary (length s) (bits_value 0 s) = s.
Proof.
  induction s as [|c s IH] using rev_ind; intros Hs; [reflexivity|].
  apply bit_string_app in Hs. destruct Hs as [Hs Hc].
  apply bit_string_cons in Hc. destruct Hc as [Hc _].
  rewrite length_app, Nat.add_1_r, be_binary_succ, bits_value_app.
  cbn [bits_value].
  destruct (is_bit_cases c Hc) as [-> | ->].
  - change (bit_value "0") with 0. rewrite Z.add_0_r.
    rewrite Z.div2_div, Z.mul_comm, Z.div_mul by lia. rewrite IH by trivial.
    rewrite Z.mul_comm, Z.odd_mul. reflexivity.
  - change (bit_value "1") with 1.
    rewrite Z.div2_div, (Z.mul_comm 2), Z.div_add_l by lia.
    change (1 / 2) with 0. rewrite Z.add_0_r, IH by trivial.
    rewrite Z.add_comm, Z.mul_comm, Z.odd_add_mul_2. reflexivity.
Qed.

(** Decoding groups of eight bits gives the code points that these
    groups are the 8-bit big-endian binary of. *)
Lemma decode_groups_exact (n : nat) (pre body : Py.str) (k : Z) :
  bit_string body -> length body = (8 * n)%nat -> k = Py.len pre ->
  exists msg,
    mapM (fun i => v <- Py.int (Py.slice (pre ++ body) i (i + 8)) 2 ;; Py.chr v)%result
         (Py.range_from k 8 n)
    = Ok msg /\
    length msg = n /\
    code_points_8bit msg /\
    concat (map (fun c => be_binary 8 (Z.of_N c)) msg) = body.
Proof.
  revert pre body k. induction n as [|n IH]; intros pre body k Hb Hlen Hk.
  - exists []. destruct body; [|discriminate]. repeat split.
  - assert (Hc : length (firstn 8 body) = 8%nat)
      by (rewrite length_firstn; lia).
    assert (Hr : length (skipn 8 body) = (8 * n)%nat)
      by (rewrite length_skipn; lia).
    rewrite <- (firstn_skipn 8 body) in Hb |- *.
    set (chunk := firstn 8 body) in *. set (rest := skipn 8 body) in *.
    apply bit_string_app in Hb. destruct Hb as [Hbc Hbr].
    cbn [Py.range_from mapM].
    rewrite (slice_app_exact pre chunk rest) by (unfold Py.len in *; lia).
    rewrite int_bits; trivial.
    2:{ intros E. rewrite E in Hc. discriminate. }
    cbn [rbind].
    pose proof (bits_value_bounds chunk 0 ltac:(lia)) as Hv.
    rewrite Hc in Hv. change (2 ^ Z.of_nat 8) with 256 in Hv.
    unfold Py.chr at 1.
    destruct (Z.leb_spec 0 (bits_value 0 chunk)); [|lia].
    destruct (Z.leb_spec (bits_value 0 chunk) 1114111); [|lia].
    cbn [andb rbind].
    destruct (IH (pre ++ chunk) rest (k + 8)) as [msg [Hmsg [Hn [H8 Hcat]]]];
      trivial.
    + unfold Py.len in *. rewrite length_app. lia.
    + rewrite <- app_assoc in Hmsg. rewrite Hmsg. cbn [rbind].
      eexists. split; [reflexivity|]. split; [simpl; now rewrite Hn|]. split.
      * apply code_points_8bit_cons. split; [lia|exact H8].
      * cbn [map concat]. rewrite Hcat, Z2N.id by lia.
        rewrite <- Hc at 1. now rewrite be_binary_bits_value.
Qed.

(** Decoding a bit string that is exactly the frame it declares gives
    the message that this bit string is the frame of. *)
Lemma bits_to_message_exact_frame (b : Py.str) (L : Z) :
  bit_string b ->
  Py.int (Py.slice b 0 32) 2 = Ok L ->
  Py.len b = 32 + 8 * L ->
  exists msg,
    bits_to_message b = Ok msg /\ Py.len msg = L /\
    code_points_8bit msg /\ frame msg = b.
Proof.
  intros Hb HL Hlen. pose proof (int_nonneg _ _ HL) as HL0.
  unfold Py.len in Hlen.
  assert (H32 : Py.slice b 0 32 = firstn 32 b)
    by (change 32 with (Z.of_nat 32); apply slice_prefix).
  assert (Hhead : length (firstn 32 b) = 32%nat)
    by (rewrite length_firstn; lia).
  assert (HLv : L = bits_value 0 (firstn 32 b)).
  { rewrite H32, int_bits in HL.
    - now injection HL as <-.
    - now apply bit_string_firstn.
    - intros E. rewrite E in Hhead. discriminate. }
  unfold bits_to_message. rewrite HL. cbn [rbind].
  assert (Hbody : Py.slice b 32 (32 + L * 8) = skipn 32 b).
  { rewrite slice_nonneg by lia. apply firstn_all2.
    rewrite length_skipn. lia. }
  rewrite Hbody.
  assert (Hblen : length (skipn 32 b) = (8 * Z.to_nat L)%nat)
    by (rewrite length_skipn; lia).
  unfold Py.len at 1. rewrite Hblen, range_groups.
  destruct (decode_groups_exact (Z.to_nat L) [] (skipn 32 b) 0)
    as [msg [Hmsg [Hn [H8 Hcat]]]]; trivial.
  { now apply bit_string_skipn. }
  cbn [app] in Hmsg. rewrite Hmsg. cbn [rbind].
  exists msg. split; [reflexivity|].
  assert (Hlm : Py.len msg = L) by (unfold Py.len; lia).
  split; [exact Hlm|]. split; [exact H8|].
  unfold frame. rewrite Hcat, Hlm, HLv.
  rewrite <- Hhead at 1.
  rewrite be_binary_bits_value by now apply bit_string_firstn.
  apply firstn_skipn.
Qed.

(** ** The bit framer: round trip, layout, trailing bits *)

(** C2: for every payload whose characters all have code points in
    0-255 and whose length is below 2^32, decoding the bit string that
    encoding produces returns the payload.  Both functions are functions
    of their argument alone. *)
Theorem bits_to_message_message_to_bits (p : text) :
  code_points_8bit p -> Py.len p < 2 ^ 32 ->
  bits_to_message (message_to_bits p) = Ok p.
Proof.
  intros Hp Hlen. rewrite message_to_bits_frame by trivial.
  now apply bits_to_message_frame.
Qed.

Lemma bits_to_message_message_to_bits_witness :
  bits_to_message (message_to_bits [72; 105; 33; 255; 0]%N)
  = Ok [72; 105; 33; 255; 0]%N.
Proof.
  apply (bits_to_message_message_to_bits [72; 105; 33; 255; 0]%N).
  - reflexivity.
  - reflexivity.
Defined.

(** C3: for every payload of length L, representable in 32 bits as the
    format requires, with all code points in 0-255, the encoding is a
    bit sequence of exactly 32 + 8 L bits; its first 32 bits are L in
    big-endian unsigned binary and the remaining bits are each
    character's code point in 8-bit big-endian binary, in payload
    order. *)
Theorem message_to_bits_layout (p : text) :
  code_points_8bit p -> Py.len p < 2 ^ 32 ->
  length (message_to_bits p) = (32 + 8 * length p)%nat /\
  firstn 32 (message_to_bits p) = be_binary 32 (Py.len p) /\
  skipn 32 (message_to_bits p)
  = concat (map (fun c => be_binary 8 (Z.of_N c)) p).
Proof.
  intros Hp Hlen. rewrite message_to_bits_frame by trivial.
  split; [apply frame_length|]. unfold frame. split.
  - rewrite firstn_app, be_binary_length, Nat.sub_diag. simpl firstn at 2.
    rewrite app_nil_r. apply firstn_all2. now rewrite be_binary_length.
  - rewrite skipn_app, be_binary_length, Nat.sub_diag.
    rewrite skipn_all2 by now rewrite be_binary_length.
    reflexivity.
Qed.

Lemma message_to_bits_layout_witness :
  length (message_to_bits [72; 105]%N) = 48%nat /\
  firstn 32 (message_to_bits [72; 105]%N) = be_binary 32 2 /\
  skipn 32 (message_to_bits [72; 105]%N)
  = be_binary 8 72 ++ be_binary 8 105 ++ [].
Proof.
  apply (message_to_bits_layout [72; 105]%N).
  - reflexivity.
  - reflexivity.
Defined.

(** C10: decoding depends only on the first 32 + 8 L bits of a bit
    string that has them, L being the value of its first 32 bits: the
    result is that of decoding this prefix, whatever follows it. *)
Theorem bits_to_message_prefix (b : Py.str) (L : Z) :
  bit_string b ->
  Py.int (Py.slice b 0 32) 2 = Ok L ->
  32 + 8 * L <= Py.len b ->
  bits_to_message b = bits_to_message (firstn (Z.to_nat (32 + 8 * L)) b).
Proof.
  intros _ HL Hlen. pose proof (int_nonneg _ _ HL) as HL0.
  set (n := Z.to_nat (32 + 8 * L)).
  assert (H32 : Py.slice (firstn n b) 0 32 = Py.slice b 0 32).
  { change 32 with (Z.of_nat 32). rewrite !slice_prefix, firstn_firstn.
    f_equal. lia. }
  assert (Hmsg : Py.slice (firstn n b) 32 (32 + L * 8)
                 = Py.slice b 32 (32 + L * 8)).
  { rewrite !slice_nonneg by lia. rewrite skipn_firstn_comm, firstn_firstn.
    f_equal. lia. }
  unfold bits_to_message. rewrite H32, HL. cbn [rbind]. now rewrite Hmsg.
Qed.

Lemma bits_to_message_prefix_witness :
  bits_to_message (message_to_bits [65]%N ++ list_ascii_of_string "110100101")
  = bits_to_message
      (firstn 40 (message_to_bits [65]%N ++ list_ascii_of_string "110100101")).
Proof.
  apply (bits_to_message_prefix
           (message_to_bits [65]%N ++ list_ascii_of_string "110100101") 1).
  - reflexivity.
  - reflexivity.
  - unfold Py.len. simpl. lia.
Defined.

(** ** Lists *)

Lemma firstn_add {A : Type} (n m : nat) (l : list A) :
  firstn (n + m) l = firstn n l ++ firstn m (skipn n l).
Proof.
  revert l. induction n as [|n IH]; intros [|a l]; simpl;
    rewrite ?firstn_nil; trivial.
  now rewrite IH.
Qed.

Lemma skipn_nth_error {A : Type} (l : list A) (k : nat) (a : A) :
  nth_error l k = Some a -> skipn k l = a :: skipn (S k) l.
Proof.
  revert l. induction k as [|k IH]; intros [|b l] H; try discriminate.
  - now injection H as ->.
  - apply IH in H. exact H.
Qed.

Lemma channels_app (a b : list pixel) :
  channels (a ++ b) = channels a ++ channels b.
Proof. apply flat_map_app. Qed.

Lemma channels_length (buf : list pixel) :
  length (channels buf) = (3 * length buf)%nat.
Proof.
  induction buf as [|[[r g] b] buf IH]; [reflexivity|].
  change (channels ((r, g, b) :: buf)) with ([r; g; b] ++ channels buf).
  rewrite length_app, IH. simpl. lia.
Qed.

Lemma lsbs_length (buf : list pixel) : length (lsbs buf) = (3 * length buf)%nat.
Proof. unfold lsbs. now rewrite length_map, channels_length. Qed.

Lemma lsbs_bit_string (buf : list pixel) : bit_string (lsbs buf).
Proof.
  apply bit_string_Forall, Forall_forall. intros c Hc.
  apply in_map_iff in Hc. destruct Hc as [i [<- _]]. apply is_bit_bit_char.
Qed.

(** ** The extraction scan *)

Lemma str_of_int_lsb (colour : Z) :
  Py.str_of_int (Z.land colour 1) = [lsb_char colour].
Proof.
  change (Z.land colour 1) with (Z.land colour (Z.ones 1)).
  rewrite Z.land_ones by lia. change (2 ^ 1) with 2. rewrite Zmod_odd.
  unfold lsb_char. destruct (Z.odd colour); reflexivity.
Qed.

Lemma slice_to {A : Type} (s : list A) (hi : Z) :
  0 <= hi -> Py.slice s 0 hi = firstn (Z.to_nat hi) s.
Proof.
  intros H. rewrite <- (Z2Nat.id hi) at 1 by trivial. apply slice_prefix.
Qed.

Lemma extract_colours_app (cs1 cs2 : list Z) (st : scan_state) :
  extract_colours (cs1 ++ cs2) st
  = (f <- extract_colours cs1 st ;;
     match f with
     | Next st' => extract_colours cs2 st'
     | Return r => Ok (Return r)
     end)%result.
Proof.
  revert st. induction cs1 as [|c cs1 IH]; intros st; [reflexivity|].
  cbn [app extract_colours].
  destruct (extract_colour c st) as [[st'|r]|e]; cbn [rbind]; trivial.
Qed.

Lemma scan_of_Next (s : Py.str) (st : scan_state) :
  scan_of s = Ok (Next st) -> fst st = s.
Proof.
  unfold scan_of. destruct (length s <? 32)%nat.
  - intros H. injection H as <-. reflexivity.
  - destruct (Py.int (firstn 32 s) 2) as [n|e]; cbn [rbind]; [|discriminate].
    destruct (32 + n * 8 <=? Py.len s); [discriminate|].
    intros H. injection H as <-. reflexivity.
Qed.

(** Once the scan has left, or raised, what would follow is not looked
    at. *)
Lemma scan_of_stable (s t : Py.str) :
  (forall st, scan_of s <> Ok (Next st)) -> scan_of (s ++ t) = scan_of s.
Proof.
  unfold scan_of. intros H.
  destruct (Nat.ltb_spec (length s) 32) as [Hs|Hs];
    [exfalso; now apply (H (s, None))|].
  destruct (Nat.ltb_spec (length (s ++ t)) 32) as [Hst|_];
    [rewrite length_app in Hst; lia|].
  rewrite firstn_app. replace (32 - length s)%nat with 0%nat by lia.
  rewrite firstn_O, app_nil_r.
  destruct (Py.int (firstn 32 s) 2) as [n|e]; cbn [rbind] in *; trivial.
  destruct (Z.leb_spec (32 + n * 8) (Py.len s)) as [Hn|Hn];
    [|exfalso; now apply (H (s, Some n))].
  unfold Py.len in *. rewrite length_app.
  destruct (Z.leb_spec (32 + n * 8) (Z.of_nat (length s + length t)));
    [|lia].
  rewrite firstn_app.
  replace (Z.to_nat (32 + n * 8) - length s)%nat with 0%nat by lia.
  now rewrite firstn_O, app_nil_r.
Qed.

(** One step of the scan, from a state the scan reaches. *)
Lemma extract_colour_scan_of (colour : Z) (bits : Py.str) (ml : option Z) :
  scan_of bits = Ok (Next (bits, ml)) ->
  extract_colour colour (bits, ml) = scan_of (bits ++ [lsb_char colour]).
Proof.
  intros H. unfold extract_colour. rewrite str_of_int_lsb.
  set (bits' := bits ++ [lsb_char colour]).
  assert (Hlen : length bits' = S (length bits))
    by (unfold bits'; rewrite length_app; simpl; lia).
  assert (Hf : (32 <= length bits)%nat -> firstn 32 bits' = firstn 32 bits).
  { intros Hb. unfold bits'. rewrite firstn_app.
    replace (32 - length bits)%nat with 0%nat by lia.
    now rewrite firstn_O, app_nil_r. }
  unfold scan_of in *.
  destruct (Nat.ltb_spec (length bits) 32) as [Hb|Hb].
  - injection H as <-.
    destruct (Nat.eqb_spec (length bits') 32) as [E|E].
    + destruct (Nat.ltb_spec (length bits') 32) as [|_]; [lia|].
      rewrite firstn_all2 by lia.
      destruct (Py.int bits' 2) as [n|e] eqn:En; cbn [rbind]; trivial.
      apply int_nonneg in En.
      destruct (32 + n * 8 <=? Py.len bits'); trivial.
      now rewrite slice_to by lia.
    + destruct (Nat.ltb_spec (length bits') 32) as [_|]; [|lia].
      reflexivity.
  - destruct (Py.int (firstn 32 bits) 2) as [n|e] eqn:En; cbn [rbind] in H;
      [|discriminate].
    destruct (32 + n * 8 <=? Py.len bits); [discriminate|].
    injection H as <-. cbn [rbind].
    destruct (Nat.ltb_spec (length bits') 32) as [|_]; [lia|].
    rewrite Hf, En by trivial. cbn [rbind].
    apply int_nonneg in En.
    destruct (32 + n * 8 <=? Py.len bits'); trivial.
    now rewrite slice_to by lia.
Qed.

(** The loop over colours reads their least significant bits as
    [scan_of] says. *)
Lemma extract_colours_scan_of (cs : list Z) (bits : Py.str) (ml : option Z) :
  scan_of bits = Ok (Next (bits, ml)) ->
  extract_colours cs (bits, ml) = scan_of (bits ++ map lsb_char cs).
Proof.
  revert bits ml. induction cs as [|c cs IH]; intros bits ml H.
  - simpl. now rewrite app_nil_r.
  - cbn [extract_colours map]. rewrite extract_colour_scan_of by trivial.
    replace (bits ++ lsb_char c :: map lsb_char cs)
      with ((bits ++ [lsb_char c]) ++ map lsb_char cs)
      by now rewrite <- app_assoc.
    destruct (scan_of (bits ++ [lsb_char c])) as [[[b' ml']|r]|e] eqn:E;
      cbn [rbind].
    + pose proof (scan_of_Next _ _ E) as Eb. simpl in Eb. subst b'.
      now apply IH.
    + rewrite scan_of_stable; [now rewrite E|]. rewrite E. discriminate.
    + rewrite scan_of_stable; [now rewrite E|]. rewrite E. discriminate.
Qed.

Lemma pixel_at_in (w h : nat) (buf : list pixel) (x y : nat) :
  (x < w)%nat -> (y < h)%nat ->
  pixel_at w h buf x y = Py.getitem buf (y * w + x).
Proof.
  intros Hx Hy. unfold pixel_at.
  destruct (Nat.ltb_spec x w); [|lia]. destruct (Nat.ltb_spec y h); [|lia].
  reflexivity.
Qed.

Lemma reading_S (need got : nat) (r : result (flow scan_state Py.str)) :
  reading (S need) (S got) r = reading need got r.
Proof. reflexivity. Qed.

Lemma reading_add (k need got : nat) (r : result (flow scan_state Py.str)) :
  reading (k + need) (k + got) r = reading need got r.
Proof. induction k; trivial. Qed.

Lemma reading_enough (need got : nat) (r : result (flow scan_state Py.str)) :
  (need <= got)%nat -> reading need got r = r.
Proof.
  intros H. destruct r as [[st|b]|e]; trivial. unfold reading.
  destruct (Nat.ltb_spec got need); [lia|reflexivity].
Qed.

(** The loop over the columns [x0 .. x0 + n - 1] of row [y] visits the
    colours of these pixels in order. *)
Lemma extract_row_flat (w h : nat) (buf : list pixel) (y n x0 : nat)
      (st : scan_state) :
  (x0 + n <= w)%nat -> (y < h)%nat ->
  extract_row w h buf y (seq x0 n) st
  = reading n (length (firstn n (skipn (y * w + x0) buf)))
      (extract_colours (channels (firstn n (skipn (y * w + x0) buf))) st).
Proof.
  revert x0 st. induction n as [|n IH]; intros x0 st Hx Hy; [reflexivity|].
  cbn [seq extract_row]. rewrite pixel_at_in by lia. unfold Py.getitem.
  destruct (nth_error buf (y * w + x0)) as [[[r g] b]|] eqn:E; cbn [rbind].
  - rewrite (skipn_nth_error _ _ _ E). cbn [firstn length].
    change (channels ((r, g, b) :: ?l)) with ([r; g; b] ++ channels l).
    rewrite extract_colours_app, reading_S.
    destruct (extract_colours [r; g; b] st) as [[st'|s]|e]; cbn [rbind];
      trivial.
    rewrite IH by lia. now rewrite Nat.add_succ_r.
  - apply nth_error_None in E. rewrite skipn_all2 by trivial. reflexivity.
Qed.

(** The loop over the rows [y0 .. y0 + m - 1] visits the colours of
    their pixels in row-major order. *)
Lemma extract_rows_flat (w h : nat) (buf : list pixel) (m y0 : nat)
      (st : scan_state) :
  (y0 + m <= h)%nat ->
  extract_rows w h buf (seq y0 m) st
  = reading (m * w) (length (firstn (m * w) (skipn (y0 * w) buf)))
      (extract_colours (channels (firstn (m * w) (skipn (y0 * w) buf))) st).
Proof.
  revert y0 st. induction m as [|m IH]; intros y0 st Hy; [reflexivity|].
  cbn [seq extract_rows]. rewrite extract_row_flat by lia.
  rewrite Nat.add_0_r. change (S m * w)%nat with (w + m * w)%nat.
  rewrite firstn_add, skipn_skipn, channels_app, extract_colours_app, length_app.
  set (row := firstn w (skipn (y0 * w) buf)).
  change (w + y0 * w)%nat with (S y0 * w)%nat.
  set (rest := firstn (m * w) (skipn (S y0 * w) buf)).
  assert (Hrow : (length row < w)%nat -> rest = []).
  { unfold row, rest. rewrite length_firstn, length_skipn. intros Hlt.
    rewrite skipn_all2 by (simpl; lia). apply firstn_nil. }
  destruct (extract_colours (channels row) st) as [[st'|s]|e]; cbn [rbind];
    trivial.
  unfold reading at 1.
  destruct (Nat.ltb_spec (length row) w) as [Hlt|Hge]; cbn [rbind].
  - rewrite (Hrow Hlt). simpl. unfold reading.
    destruct (Nat.ltb_spec (length row + 0) (w + m * w)); [reflexivity|lia].
  - assert (length row = w)
      by (unfold row in *; rewrite length_firstn in *; lia).
    rewrite IH by lia. fold rest. replace (length row) with w by lia.
    now rewrite reading_add.
Qed.

(** The scan of an image reads the least significant bits of its
    channels in scan order, as [scan_of] says. *)
Lemma extract_scan_reading (img : image) :
  extract_scan img
  = reading (height img * width img)
      (length (firstn (height img * width img) (pixels img)))
      (scan_of (lsbs (firstn (height img * width img) (pixels img)))).
Proof.
  unfold extract_scan. rewrite extract_rows_flat by lia.
  rewrite skipn_O. now rewrite extract_colours_scan_of.
Qed.

Lemma extract_scan_scan_of (img : image) :
  length (pixels img) = (width img * height img)%nat ->
  extract_scan img = scan_of (lsbs (pixels img)).
Proof.
  intros H. rewrite extract_scan_reading.
  rewrite firstn_all2 by lia. apply reading_enough. lia.
Qed.

(** ** The embedding scan *)

Lemma embed_at_beyond (bs : Py.str) (i : nat) (c : Z) :
  (length bs <= i)%nat -> embed_at bs i c = c.
Proof.
  intros H. unfold embed_at. apply nth_error_None in H. now rewrite H.
Qed.

Lemma embed_channels_beyond (bs : Py.str) (i : nat) (cs : list Z) :
  (length bs <= i)%nat -> embed_channels bs i cs = cs.
Proof.
  revert i. induction cs as [|c cs IH]; intros i H; [reflexivity|].
  cbn [embed_channels]. rewrite embed_at_beyond, IH by lia. reflexivity.
Qed.

Lemma embed_pixels_beyond (bs : Py.str) (k : nat) (ps : list pixel) :
  (length bs <= 3 * k)%nat -> embed_pixels bs k ps = ps.
Proof.
  revert k. induction ps as [|[[r g] b] ps IH]; intros k H; [reflexivity|].
  cbn [embed_pixels]. rewrite !embed_at_beyond, IH by lia. reflexivity.
Qed.

Lemma embed_pixels_length (bs : Py.str) (k : nat) (ps : list pixel) :
  length (embed_pixels bs k ps) = length ps.
Proof.
  revert k. induction ps as [|[[r g] b] ps IH]; intros k; [reflexivity|].
  cbn [embed_pixels length]. now rewrite IH.
Qed.

Lemma embed_pixels_app (bs : Py.str) (k : nat) (ps qs : list pixel) :
  embed_pixels bs k (ps ++ qs)
  = embed_pixels bs k ps ++ embed_pixels bs (k + length ps) qs.
Proof.
  revert k. induction ps as [|[[r g] b] ps IH]; intros k.
  - simpl. now rewrite Nat.add_0_r.
  - cbn [app embed_pixels length]. rewrite IH.
    now rewrite Nat.add_succ_r.
Qed.

Lemma channels_embed_pixels (bs : Py.str) (k : nat) (ps : list pixel) :
  channels (embed_pixels bs k ps) = embed_channels bs (3 * k) (channels ps).
Proof.
  revert k. induction ps as [|[[r g] b] ps IH]; intros k; [reflexivity|].
  cbn [embed_pixels].
  change (channels (?p :: ?l)) with
    ((let '(r, g, b) := p in [r; g; b]) ++ channels l).
  cbn [app embed_channels]. rewrite IH.
  replace (3 * S k)%nat with (S (S (S (3 * k)))) by lia. reflexivity.
Qed.

Lemma int_bit_char (c : ascii) :
  is_bit c = true -> Py.int [c] 10 = Ok (bit_value c).
Proof.
  intros H. unfold Py.int. cbn [Py.int_digits].
  now rewrite (digit_bit c 10 H) by lia.
Qed.

(** The loop over the colours of a pixel, from bit [i] on. *)
Lemma embed_colours_spec (bs : Py.str) (cs new_colors : list Z) (i : nat) :
  bit_string bs ->
  embed_colours bs (length bs) cs new_colors i
  = Ok (new_colors ++ embed_channels bs i cs,
        Nat.max i (Nat.min (i + length cs) (length bs))).
Proof.
  intros Hbs. revert new_colors i.
  induction cs as [|c cs IH]; intros acc i.
  - simpl. rewrite app_nil_r. do 2 f_equal. lia.
  - cbn [embed_colours embed_channels length].
    destruct (Nat.ltb_spec i (length bs)) as [Hi|Hi].
    + unfold Py.getitem, embed_at.
      destruct (nth_error bs i) as [b|] eqn:E;
        [|apply nth_error_None in E; lia].
      cbn [rbind]. rewrite int_bit_char.
      * cbn [rbind]. rewrite IH, <- app_assoc, Nat.add_1_r.
        cbn [app]. do 2 f_equal. lia.
      * apply nth_error_In in E. apply bit_string_Forall in Hbs.
        now apply (proj1 (Forall_forall _ _) Hbs).
    + rewrite IH, <- app_assoc, embed_at_beyond by trivial.
      rewrite (embed_channels_beyond bs i), (embed_channels_beyond bs (S i))
        by lia.
      cbn [app]. do 2 f_equal. lia.
Qed.

Lemma update_app {A : Type} (l1 l2 : list A) (a b : A) :
  update (l1 ++ a :: l2) (length l1) b = l1 ++ b :: l2.
Proof. induction l1 as [|c l1 IH]; simpl; [reflexivity|]. now rewrite IH. Qed.

Section EmbedLoops.

Variables (w h : nat) (bs : Py.str).
Hypothesis Hbs : bit_string bs.

(** The loop over the columns [x0 .. x0 + n - 1] of row [y], entered
    with the [k] pixels before them done and [3 k] bits written. *)
Lemma embed_row_spec (y n x0 k : nat) (done todo : list pixel) :
  (x0 + n <= w)%nat -> (y < h)%nat -> k = (y * w + x0)%nat ->
  length done = k -> (n <= length todo)%nat ->
  exists i',
    embed_row w h bs (length bs) y (seq x0 n) (3 * k) (done ++ todo)
    = (Ok i', done ++ embed_pixels bs k (firstn n todo) ++ skipn n todo) /\
    (i' <= 3 * (k + n))%nat /\
    (i' < (length bs) -> i' = 3 * (k + n))%nat.
Proof.
  revert x0 k done todo.
  induction n as [|n IH]; intros x0 k done todo Hx Hy Hk Hdone Htodo.
  - exists (3 * k)%nat. cbn [seq embed_row firstn skipn embed_pixels app].
    unfold ret. rewrite Nat.add_0_r. auto.
  - destruct todo as [|[[r g] b] todo]; [simpl in Htodo; lia|].
    cbn [seq embed_row firstn skipn embed_pixels].
    assert (Hidx : (y * w + x0)%nat = length done) by lia.
    unfold bind at 1, getpixel. rewrite pixel_at_in, Hidx by lia.
    unfold Py.getitem. rewrite nth_error_app2, Nat.sub_diag by lia.
    cbn [nth_error].
    unfold bind at 1, lift.
    rewrite embed_colours_spec by trivial.
    cbn [app embed_channels tuple3 length].
    unfold bind at 1. unfold bind at 1, putpixel. rewrite Hidx. cbv beta.
    destruct (Nat.ltb_spec x0 w) as [_|]; [|lia].
    destruct (Nat.ltb_spec y h) as [_|]; [|lia].
    match goal with
    | |- context [(?a <? ?b)%nat] =>
        destruct (Nat.ltb_spec a b) as [_|Hl];
          [|rewrite length_app in Hl; simpl in Hl; lia]
    end.
    cbn [andb]. rewrite update_app.
    set (i1 := Nat.max (3 * k) (Nat.min (3 * k + 3) (length bs))).
    set (p' := (embed_at bs (3 * k) r, embed_at bs (S (3 * k)) g,
                embed_at bs (S (S (3 * k))) b)).
    destruct (Nat.leb_spec (length bs) i1) as [Hbreak|Hgo].
    + exists i1. unfold ret. split; [|lia].
      rewrite embed_pixels_beyond by lia.
      now rewrite firstn_skipn.
    + destruct (IH (S x0) (S k) (done ++ [p']) todo) as [i' [Hrun [Hle Heq]]];
        try lia.
      { rewrite length_app. simpl. lia. }
      { simpl in Htodo. lia. }
      exists i'. replace i1 with (3 * S k)%nat by lia.
      rewrite <- app_assoc in Hrun. cbn [app] in Hrun. rewrite Hrun.
      rewrite <- app_assoc. cbn [app].
      split; [reflexivity|]. split; [lia|]. intros Hi. apply Heq in Hi. lia.
Qed.

(** The loop over the rows [y0 .. y0 + m - 1]. *)
Lemma embed_rows_spec (m y0 k : nat) (done todo : list pixel) :
  (y0 + m <= h)%nat -> k = (y0 * w)%nat ->
  length done = k -> (m * w <= length todo)%nat ->
  exists i',
    embed_rows w h bs (length bs) (seq y0 m) (3 * k) (done ++ todo)
    = (Ok i',
       done ++ embed_pixels bs k (firstn (m * w) todo) ++ skipn (m * w) todo) /\
    (i' <= 3 * (k + m * w))%nat /\
    (i' < (length bs) -> i' = 3 * (k + m * w))%nat.
Proof.
  revert y0 k done todo.
  induction m as [|m IH]; intros y0 k done todo Hy Hk Hdone Htodo.
  - exists (3 * k)%nat. change (0 * w)%nat with 0%nat.
    cbn [seq embed_rows firstn skipn embed_pixels app].
    unfold ret. rewrite Nat.add_0_r. auto.
  - cbn [seq embed_rows]. unfold bind at 1.
    change (S m * w)%nat with (w + m * w)%nat in *.
    destruct (embed_row_spec y0 w 0 k done todo) as [i1 [Hrow [Hle Heq]]];
      try lia.
    rewrite Hrow.
    replace (skipn (w + m * w) todo) with (skipn (m * w) (skipn w todo))
      by (rewrite skipn_skipn; f_equal; lia).
    rewrite firstn_add, embed_pixels_app.
    assert (Hw : length (firstn w todo) = w)
      by (rewrite length_firstn; lia).
    rewrite Hw.
    destruct (Nat.leb_spec (length bs) i1) as [Hbreak|Hgo].
    + exists i1. unfold ret. split; [|lia].
      rewrite (embed_pixels_beyond bs (k + w)) by lia.
      now rewrite <- app_assoc, firstn_skipn.
    + destruct (IH (S y0) (k + w)%nat
                   (done ++ embed_pixels bs k (firstn w todo)) (skipn w todo))
        as [i' [Hrun [Hle' Heq']]];
        rewrite ?length_app, ?embed_pixels_length, ?length_skipn; try lia.
      exists i'. replace i1 with (3 * (k + w))%nat by lia.
      rewrite <- app_assoc in Hrun. rewrite Hrun, <- !app_assoc.
      split; [reflexivity|]. split; [lia|]. intros Hi. apply Heq' in Hi. lia.
Qed.

End EmbedLoops.

(** Embedding a bit string that fits writes it, in scan order, into
    the least significant bits and raises nothing. *)
Lemma embed_fits (img : image) (bs : Py.str) :
  bit_string bs ->
  length (pixels img) = (width img * height img)%nat ->
  (length bs <= capacity img)%nat ->
  embed img bs
  = (Ok tt, mkImage (width img) (height img) (embed_pixels bs 0 (pixels img))).
Proof.
  intros Hbs Hlen Hcap. unfold embed, capacity in *.
  destruct (Nat.ltb_spec (width img * height img * 3) (length bs)); [lia|].
  destruct (embed_rows_spec (width img) (height img) bs Hbs
              (height img) 0 0 [] (pixels img)) as [i' [Hrun _]];
    try (simpl; lia).
  simpl in Hrun. rewrite Hrun.
  rewrite firstn_all2, skipn_all2, app_nil_r by lia. reflexivity.
Qed.

(** ** Least significant bits after embedding *)

Lemma lsb_char_embedded (c : Z) (b : ascii) :
  is_bit b = true ->
  lsb_char (Z.lor (Z.land c (Z.lnot 1)) (bit_value b)) = b.
Proof.
  intros H. unfold lsb_char. rewrite <- Z.bit0_odd.
  rewrite Z.lor_spec, Z.land_spec, Z.lnot_spec by lia.
  change (Z.testbit 1 0) with true. rewrite andb_false_r. cbn [negb orb].
  destruct (is_bit_cases b H) as [-> | ->]; reflexivity.
Qed.

Lemma land_lnot_1_byte (c : Z) :
  is_byte c = true -> Z.land c (Z.lnot 1) = Z.land c 254.
Proof.
  unfold is_byte. intros H. apply andb_true_iff in H. destruct H as [H0 H1].
  apply Z.leb_le in H0. apply Z.ltb_lt in H1.
  rewrite <- (Z.mod_small c 256) by lia.
  change 256 with (2 ^ 8). rewrite <- Z.land_ones by lia.
  now rewrite <- !Z.land_assoc.
Qed.

Lemma nth_error_embed_channels (bs : Py.str) (i j : nat) (cs : list Z) :
  nth_error (embed_channels bs i cs) j
  = option_map (embed_at bs (i + j)) (nth_error cs j).
Proof.
  revert i j. induction cs as [|c cs IH]; intros i [|j]; trivial.
  - cbn [embed_channels nth_error option_map]. now rewrite Nat.add_0_r.
  - cbn [embed_channels nth_error]. rewrite IH. now rewrite Nat.add_succ_r.
Qed.

Lemma lsbs_embed_channels (bs : Py.str) (i : nat) (cs : list Z) :
  bit_string bs ->
  map lsb_char (embed_channels bs i cs)
  = firstn (length cs) (skipn i bs) ++ skipn (length bs - i) (map lsb_char cs).
Proof.
  intros Hbs. revert i. induction cs as [|c cs IH]; intros i.
  - simpl. now rewrite skipn_nil.
  - cbn [embed_channels map length]. rewrite IH. unfold embed_at.
    destruct (nth_error bs i) as [b|] eqn:E.
    + rewrite (skipn_nth_error _ _ _ E). cbn [firstn app].
      rewrite lsb_char_embedded.
      * assert (i < length bs)%nat by (apply nth_error_Some; congruence).
        replace (length bs - i)%nat with (S (length bs - S i)) by lia.
        reflexivity.
      * apply nth_error_In in E. apply bit_string_Forall in Hbs.
        now apply (proj1 (Forall_forall _ _) Hbs).
    + apply nth_error_None in E.
      rewrite (skipn_all2 (n:=i)), (skipn_all2 (n:=S i)) by lia.
      rewrite !firstn_nil.
      replace (length bs - i)%nat with 0%nat by lia.
      replace (length bs - S i)%nat with 0%nat by lia.
      reflexivity.
Qed.

(** The least significant bits of a raster after embedding: the bit
    string, then those that were there. *)
Lemma lsbs_embed_pixels (bs : Py.str) (buf : list pixel) :
  bit_string bs -> (length bs <= 3 * length buf)%nat ->
  lsbs (embed_pixels bs 0 buf) = bs ++ skipn (length bs) (lsbs buf).
Proof.
  intros Hbs Hlen. unfold lsbs. rewrite channels_embed_pixels.
  change (3 * 0)%nat with 0%nat. rewrite lsbs_embed_channels by trivial.
  rewrite skipn_O, Nat.sub_0_r, firstn_all2; [reflexivity|].
  rewrite channels_length. lia.
Qed.

(** The scan of the frame of a payload leaves with the frame. *)
Lemma scan_of_frame (p : text) :
  Py.len p < 2 ^ 32 -> scan_of (frame p) = Ok (Return (frame p)).
Proof.
  intros Hlen. unfold scan_of.
  pose proof (frame_length p) as Hfl.
  destruct (Nat.ltb_spec (length (frame p)) 32) as [|_]; [lia|].
  assert (H32 : firstn 32 (frame p) = be_binary 32 (Py.len p)).
  { unfold frame. rewrite firstn_app, be_binary_length, Nat.sub_diag.
    rewrite firstn_O, app_nil_r. apply firstn_all2.
    now rewrite be_binary_length. }
  rewrite H32, int_be_binary
    by (unfold Py.len in *; change (Z.of_nat 32) with 32; lia).
  cbn [rbind]. unfold Py.len in *. rewrite Hfl.
  destruct (Z.leb_spec (32 + Z.of_nat (length p) * 8)
                       (Z.of_nat (32 + 8 * length p))); [|lia].
  rewrite firstn_all2 by lia. reflexivity.
Qed.

(** The scan depends on the bits up to the end of the declared frame
    only. *)
Lemma scan_of_prefix (s t : Py.str) (L : Z) :
  (32 <= length s)%nat ->
  Py.int (firstn 32 s) 2 = Ok L ->
  32 + 8 * L <= Py.len s ->
  firstn (Z.to_nat (32 + 8 * L)) t = firstn (Z.to_nat (32 + 8 * L)) s ->
  scan_of t = Ok (Return (firstn (Z.to_nat (32 + 8 * L)) s)).
Proof.
  intros H32 HL Hlen Ht. pose proof (int_nonneg _ _ HL) as HL0.
  set (n := Z.to_nat (32 + 8 * L)) in *. unfold Py.len in Hlen.
  assert (Hn : length (firstn n s) = n) by (rewrite length_firstn; lia).
  rewrite <- (firstn_skipn n t), Ht.
  rewrite scan_of_stable.
  - unfold scan_of. rewrite Hn.
    destruct (Nat.ltb_spec n 32) as [|_]; [lia|].
    rewrite firstn_firstn. replace (Nat.min 32 n) with 32%nat by lia.
    rewrite HL. cbn [rbind]. unfold Py.len. rewrite Hn.
    destruct (Z.leb_spec (32 + L * 8) (Z.of_nat n)); [|lia].
    replace (32 + L * 8) with (32 + 8 * L) by lia. fold n.
    now rewrite firstn_firstn, Nat.min_id.
  - intros st E. apply scan_of_Next in E as E'.
    unfold scan_of in E. rewrite Hn in E.
    destruct (Nat.ltb_spec n 32) as [|_]; [lia|].
    rewrite firstn_firstn in E. replace (Nat.min 32 n) with 32%nat in E by lia.
    rewrite HL in E. cbn [rbind] in E. unfold Py.len in E. rewrite Hn in E.
    destruct (Z.leb_spec (32 + L * 8) (Z.of_nat n)); [discriminate|lia].
Qed.

Lemma lsbs_firstn (n : nat) (buf : list pixel) :
  lsbs (firstn n buf) = firstn (3 * n) (lsbs buf).
Proof.
  revert buf. induction n as [|n IH]; intros [|[[r g] b] buf];
    try reflexivity.
  replace (3 * S n)%nat with (S (S (S (3 * n)))) by lia.
  cbn [firstn]. unfold lsbs in *.
  change (channels ((r, g, b) :: ?l)) with ([r; g; b] ++ channels l).
  cbn [app map firstn]. now rewrite IH.
Qed.

Lemma format_b_length_ge (w : nat) (n : Z) :
  0 <= n -> (w <= length (Py.format_b w n))%nat.
Proof.
  intros H. destruct n as [|p|p]; [| |lia]; unfold Py.format_b, Py.zfill;
    rewrite length_app, repeat_length; lia.
Qed.

Lemma payload_bits_length_ge (p : text) :
  (8 * length p <= length (concat (map (fun c => Py.format_b 8 (Py.ord c)) p)))%nat.
Proof.
  induction p as [|c p IH]; [simpl; lia|].
  cbn [map concat length]. rewrite length_app.
  pose proof (format_b_length_ge 8 (Py.ord c)). unfold Py.ord in *. lia.
Qed.

Lemma payload_bits_length_gt (p : text) :
  Exists (fun c => (255 < c)%N) p ->
  (8 * length p < length (concat (map (fun c => Py.format_b 8 (Py.ord c)) p)))%nat.
Proof.
  induction 1 as [c p Hc|c p _ IH]; cbn [map concat length];
    rewrite length_app.
  - pose proof (payload_bits_length_ge p).
    pose proof (format_b_wide 8 (Py.ord c)) as Hw. unfold Py.ord in *.
    change (2 ^ Z.of_nat 8) with 256 in Hw. lia.
  - pose proof (format_b_length_ge 8 (Py.ord c)). unfold Py.ord in *. lia.
Qed.

(** ** The raster codec *)

Lemma rgb_raster_length (img : image) :
  rgb_raster img -> length (pixels img) = (width img * height img)%nat.
Proof. now intros [H _]. Qed.

Lemma rgb_raster_lsbs_length (img : image) :
  rgb_raster img -> length (lsbs (pixels img)) = capacity img.
Proof.
  intros [H _]. rewrite lsbs_length, H. unfold capacity. lia.
Qed.

(** C1: for every payload whose characters all have code points in
    0-255 and whose length is below 2^32, and every RGB raster with at
    least 32 + 8 len(p) channels, hiding the payload in the raster
    succeeds, and extracting from the raster it leaves gives the payload
    back. *)
Theorem extract_hide_roundtrip (img : image) (p : text) :
  code_points_8bit p -> Py.len p < 2 ^ 32 ->
  rgb_raster img -> (32 + 8 * length p <= capacity img)%nat ->
  exists carrier,
    hide_message_in_image img p = (Ok tt, carrier) /\
    extract_message_from_image carrier = Ok p.
Proof.
  intros Hp Hlen Himg Hcap. pose proof (rgb_raster_length img Himg) as Hpix.
  unfold hide_message_in_image. rewrite message_to_bits_frame by trivial.
  assert (Hbs : bit_string (frame p))
    by (rewrite <- message_to_bits_frame by trivial;
        apply message_to_bits_bit_string).
  pose proof (frame_length p) as Hfl.
  rewrite embed_fits by (trivial; lia).
  eexists. split; [reflexivity|].
  unfold extract_message_from_image. rewrite extract_scan_scan_of.
  - cbn [pixels]. rewrite lsbs_embed_pixels
      by (trivial; unfold capacity in *; lia).
    rewrite scan_of_stable; rewrite scan_of_frame by trivial;
      [|discriminate].
    cbn [rbind]. now apply bits_to_message_frame.
  - cbn [pixels width height]. now rewrite embed_pixels_length.
Qed.

Lemma extract_hide_roundtrip_witness :
  exists carrier,
    hide_message_in_image raster_4x4 [65%N] = (Ok tt, carrier) /\
    extract_message_from_image carrier = Ok [65%N].
Proof.
  apply (extract_hide_roundtrip raster_4x4 [65%N]).
  - reflexivity.
  - reflexivity.
  - split; reflexivity.
  - vm_compute. lia.
Defined.

(** The capacity check comes first and leaves the raster alone. *)
Lemma capacity_check_raises (img : image) (bitstring : Py.str) :
  (capacity img < length bitstring)%nat ->
  embed img bitstring
  = (Raise (ValueError "The message is too long for the selected image."), img).
Proof.
  intros H. unfold embed, capacity in *.
  destruct (Nat.ltb_spec (width img * height img * 3) (length bitstring));
    [reflexivity|lia].
Qed.

(** C4: for every raster and every bit string longer than
    width x height x 3, [embed] raises the capacity error, a
    [ValueError], at the check that precedes the scan, and the raster is
    left as it was: no channel is altered. *)
Theorem embed_over_capacity (img : image) (bitstring : Py.str) :
  (capacity img < length bitstring)%nat ->
  embed img bitstring
  = (Raise (ValueError "The message is too long for the selected image."), img).
Proof.
  intros Hover. unfold embed.
  assert (Hcheck : (width img * height img * 3 <? length bitstring)%nat = true)
    by (apply Nat.ltb_lt; exact Hover).
  now rewrite Hcheck.
Qed.

Lemma embed_over_capacity_witness :
  embed raster_2x2 (message_to_bits [65%N])
  = (Raise (ValueError "The message is too long for the selected image."),
     raster_2x2).
Proof.
  apply (embed_over_capacity raster_2x2 (message_to_bits [65%N])).
  vm_compute. lia.
Defined.

(** C5: for every RGB raster and bit string within capacity, [embed]
    succeeds; in the raster it leaves, the channel at scan position [i]
    is [(original & 0xFE) | bit_sequence[i]] for every [i] below the
    number of bits, and every channel at a later position is the
    original one. *)
Theorem embed_writes_lsbs (img : image) (bitstring : Py.str) :
  rgb_raster img -> bit_string bitstring ->
  (length bitstring <= capacity img)%nat ->
  exists carrier,
    embed img bitstring = (Ok tt, carrier) /\
    width carrier = width img /\ height carrier = height img /\
    (forall i b c,
        nth_error bitstring i = Some b ->
        nth_error (channels (pixels img)) i = Some c ->
        nth_error (channels (pixels carrier)) i
        = Some (Z.lor (Z.land c 254) (bit_value b))) /\
    (forall i,
        (length bitstring <= i)%nat ->
        nth_error (channels (pixels carrier)) i
        = nth_error (channels (pixels img)) i).
Proof.
  intros [Hpix Hbytes] Hbs Hcap. rewrite embed_fits by trivial.
  eexists. split; [reflexivity|]. cbn [width height pixels].
  do 2 (split; [reflexivity|]). rewrite channels_embed_pixels.
  change (3 * 0)%nat with 0%nat. split.
  - intros i b c Hb Hc. rewrite nth_error_embed_channels, Hc.
    cbn [option_map]. unfold embed_at. rewrite Nat.add_0_l, Hb.
    rewrite land_lnot_1_byte; [reflexivity|].
    apply nth_error_In in Hc.
    now apply (proj1 (forallb_forall _ _) Hbytes).
  - intros i Hi. rewrite nth_error_embed_channels, Nat.add_0_l.
    destruct (nth_error (channels (pixels img)) i); [|reflexivity].
    cbn [option_map]. now rewrite embed_at_beyond.
Qed.

Lemma embed_writes_lsbs_witness :
  exists carrier,
    embed raster_4x4 (message_to_bits [65%N]) = (Ok tt, carrier) /\
    width carrier = 4%nat /\ height carrier = 4%nat /\
    (forall i b c,
        nth_error (message_to_bits [65%N]) i = Some b ->
        nth_error (channels (pixels raster_4x4)) i = Some c ->
        nth_error (channels (pixels carrier)) i
        = Some (Z.lor (Z.land c 254) (bit_value b))) /\
    (forall i,
        (length (message_to_bits [65%N]) <= i)%nat ->
        nth_error (channels (pixels carrier)) i
        = nth_error (channels (pixels raster_4x4)) i).
Proof.
  apply (embed_writes_lsbs raster_4x4 (message_to_bits [65%N])).
  - split; reflexivity.
  - reflexivity.
  - vm_compute. lia.
Defined.

(** C6 as stated fails: on a raster of one pixel, whose three channels
    are exhausted before 32 bits are read, extraction raises nothing and
    returns the empty message. *)
Lemma extract_raster_1x1_raises_nothing :
  extract_message_from_image raster_1x1 = Ok [] /\
  forall e, extract_message_from_image raster_1x1 <> Raise e.
Proof. split; [reflexivity|]. intros e. discriminate. Qed.

(** C6, amended: for every RGB raster whose channels are exhausted
    before the required 32 + 8 L bits are read, a raster of fewer than
    32 channels included, extraction returns the empty message; it
    raises nothing, and so never reads a pixel outside the raster. *)
Theorem extract_exhausted_returns_empty (img : image) :
  rgb_raster img ->
  (capacity img < 32)%nat \/
  (exists L, Py.int (firstn 32 (lsbs (pixels img))) 2 = Ok L /\
             Z.of_nat (capacity img) < 32 + 8 * L) ->
  extract_message_from_image img = Ok [].
Proof.
  intros Himg H. pose proof (rgb_raster_lsbs_length img Himg) as Hs.
  unfold extract_message_from_image.
  rewrite extract_scan_scan_of by now apply rgb_raster_length.
  unfold scan_of. rewrite Hs.
  destruct (Nat.ltb_spec (capacity img) 32) as [Hlt|Hge]; [reflexivity|].
  destruct H as [H|[L [HL Hcap]]]; [lia|].
  rewrite HL. cbn [rbind]. unfold Py.len. rewrite Hs.
  destruct (Z.leb_spec (32 + L * 8) (Z.of_nat (capacity img)));
    [lia|reflexivity].
Qed.

Lemma extract_exhausted_returns_empty_witness :
  extract_message_from_image raster_1x1 = Ok [].
Proof.
  apply (extract_exhausted_returns_empty raster_1x1).
  - split; reflexivity.
  - left. vm_compute. lia.
Defined.

(** C7: for every RGB raster that has the required = 32 + 8 L
    channels, L being the value of the first 32 least significant bits
    in scan order, the scan leaves with exactly the first required bits
    and extraction returns their decoding: the message of L characters,
    with code points in 0-255, whose frame (L in 32-bit big-endian
    binary, then every code point in 8-bit big-endian binary) is these
    bits.  No later channel is visited: a raster of the same size that
    has the same first required bits gives the same, whatever the rest
    of its buffer is, or when the pixels after them are not there to be
    read. *)
Theorem extract_returns_declared_frame (img : image) (L : Z) :
  rgb_raster img ->
  (32 <= capacity img)%nat ->
  Py.int (firstn 32 (lsbs (pixels img))) 2 = Ok L ->
  32 + 8 * L <= Z.of_nat (capacity img) ->
  let required := Z.to_nat (32 + 8 * L) in
  let relevant_bits := firstn required (lsbs (pixels img)) in
  extract_scan img = Ok (Return relevant_bits) /\
  length relevant_bits = required /\
  extract_message_from_image img = bits_to_message relevant_bits /\
  (exists message,
      extract_message_from_image img = Ok message /\ Py.len message = L /\
      code_points_8bit message /\ frame message = relevant_bits) /\
  forall img2,
    width img2 = width img -> height img2 = height img ->
    firstn required (lsbs (pixels img2)) = relevant_bits ->
    extract_scan img2 = Ok (Return relevant_bits).
Proof.
  intros Himg H32 HL Hcap required relevant_bits.
  pose proof (rgb_raster_lsbs_length img Himg) as Hs.
  pose proof (int_nonneg _ _ HL) as HL0.
  assert (Hscan : extract_scan img = Ok (Return relevant_bits)).
  { rewrite extract_scan_scan_of by now apply rgb_raster_length.
    apply (scan_of_prefix (lsbs (pixels img)) _ L); trivial; try lia.
    unfold Py.len. lia. }
  assert (Hlen : length relevant_bits = required)
    by (unfold relevant_bits, required; rewrite length_firstn; lia).
  assert (Hmsg : extract_message_from_image img = bits_to_message relevant_bits)
    by (unfold extract_message_from_image; now rewrite Hscan).
  split; [exact Hscan|]. split; [exact Hlen|]. split; [exact Hmsg|]. split.
  { rewrite Hmsg. apply bits_to_message_exact_frame.
    - apply bit_string_firstn, lsbs_bit_string.
    - change 32 with (Z.of_nat 32). rewrite slice_prefix.
      unfold relevant_bits. rewrite firstn_firstn.
      replace (Nat.min 32 required) with 32%nat by (unfold required; lia).
      exact HL.
    - unfold Py.len. rewrite Hlen. unfold required. lia. }
  intros img2 Hw Hh Hsame. rewrite extract_scan_reading.
  rewrite (scan_of_prefix (lsbs (pixels img)) _ L); trivial;
    try (unfold Py.len; lia).
  rewrite lsbs_firstn, firstn_firstn, Hw, Hh.
  replace (Nat.min (Z.to_nat (32 + 8 * L)) (3 * (height img * width img)))
    with required by (unfold required, capacity in *; lia).
  exact Hsame.
Qed.

Lemma extract_returns_declared_frame_witness :
  extract_scan carrier_A
  = Ok (Return (firstn 40 (lsbs (pixels carrier_A)))) /\
  length (firstn 40 (lsbs (pixels carrier_A))) = 40%nat /\
  extract_message_from_image carrier_A
  = bits_to_message (firstn 40 (lsbs (pixels carrier_A))) /\
  (exists message,
      extract_message_from_image carrier_A = Ok message /\
      Py.len message = 1 /\
      code_points_8bit message /\
      frame message = firstn 40 (lsbs (pixels carrier_A))) /\
  forall img2,
    width img2 = width carrier_A -> height img2 = height carrier_A ->
    firstn 40 (lsbs (pixels img2)) = firstn 40 (lsbs (pixels carrier_A)) ->
    extract_scan img2 = Ok (Return (firstn 40 (lsbs (pixels carrier_A)))).
Proof.
  apply (extract_returns_declared_frame carrier_A 1).
  - split; reflexivity.
  - vm_compute. lia.
  - reflexivity.
  - vm_compute. discriminate.
Defined.

(** C8, the code at the failing input: a payload of the one character
    of code point 256 raises nothing.  The character is written with nine
    bits, against the eight that the docstring of [message_to_bits]
    gives every character; the 41 bits are hidden in the 4 by 4 raster,
    and extraction returns the character of code point 128 in its
    place. *)
Lemma hide_code_point_256_raises_nothing :
  length (message_to_bits [256%N]) = 41%nat /\
  fst (hide_message_in_image raster_4x4 [256%N]) = Ok tt /\
  snd (hide_message_in_image raster_4x4 [256%N]) <> raster_4x4 /\
  extract_message_from_image (snd (hide_message_in_image raster_4x4 [256%N]))
  = Ok [128%N].
Proof.
  split; [reflexivity|]. split; [reflexivity|]. split; [discriminate|].
  reflexivity.
Qed.

(** C9 as stated fails: scan position 5 holds a bit of the length
    prefix.  In the carrier of "A" in the 4 by 4 raster the scan recovers
    the 40 bits of the frame; with the least significant bit of channel 5
    flipped the declared length is 2^26 + 1, the 48 channels run out and
    no bit sequence is recovered. *)
Lemma flip_5_loses_frame :
  extract_scan carrier_A = Ok (Return (message_to_bits [65%N])) /\
  extract_message_from_image carrier_A = Ok [65%N] /\
  (forall r, extract_scan (flip_lsb 5 carrier_A) <> Ok (Return r)) /\
  extract_message_from_image (flip_lsb 5 carrier_A) = Ok [].
Proof.
  split; [reflexivity|]. split; [reflexivity|]. split; [|reflexivity].
  intros r. vm_compute. discriminate.
Qed.

Lemma lsb_char_flip (c : Z) : lsb_char (Z.lxor c 1) <> lsb_char c.
Proof.
  unfold lsb_char. rewrite <- !Z.bit0_odd, Z.lxor_spec.
  change (Z.testbit 1 0) with true. destruct (Z.testbit c 0); discriminate.
Qed.

Lemma bit_value_lsb_flip (c : Z) :
  Z.abs (bit_value (lsb_char (Z.lxor c 1)) - bit_value (lsb_char c)) = 1.
Proof.
  unfold lsb_char. rewrite <- !Z.bit0_odd, Z.lxor_spec.
  change (Z.testbit 1 0) with true. destruct (Z.testbit c 0); reflexivity.
Qed.

Lemma firstn_32_skip_6 {A : Type} (a0 a1 a2 a3 a4 a5 : A) (l : list A) :
  firstn 32 (a0 :: a1 :: a2 :: a3 :: a4 :: a5 :: l)
  = a0 :: a1 :: a2 :: a3 :: a4 :: a5 :: firstn 26 l.
Proof. reflexivity. Qed.

(** The digits already read weigh 2 to the number of digits that
    follow. *)
Lemma bits_value_acc (s : Py.str) (acc : Z) :
  bits_value acc s = acc * 2 ^ Z.of_nat (length s) + bits_value 0 s.
Proof.
  revert acc. induction s as [|c s IH]; intros acc.
  - simpl. lia.
  - cbn [bits_value length]. rewrite IH, (IH (2 * 0 + bit_value c)).
    rewrite Nat2Z.inj_succ, Z.pow_succ_r by lia. ring.
Qed.

(** C9, amended: for every RGB raster of two pixels at least, a
    carrier that [embed] leaves included, flipping the least significant
    bit of the channel at scan position 5 changes bit 5, and no other, of
    the sequence of least significant bits that extraction reads in scan
    order; what extraction recovers is what [scan_of] cuts from this
    sequence at the length its first 32 bits declare, and the flip
    moves that length by 2^26. *)
Theorem flip_5_changes_bit_5 (img : image) :
  rgb_raster img -> (2 <= length (pixels img))%nat ->
  let s := lsbs (pixels img) in
  let s' := lsbs (pixels (flip_lsb 5 img)) in
  length s' = length s /\
  (forall i, i <> 5%nat -> nth_error s' i = nth_error s i) /\
  nth_error s' 5 <> nth_error s 5 /\
  extract_scan img = scan_of s /\
  extract_scan (flip_lsb 5 img) = scan_of s' /\
  ((32 <= capacity img)%nat ->
   exists L L',
     Py.int (firstn 32 s) 2 = Ok L /\ Py.int (firstn 32 s') 2 = Ok L' /\
     Z.abs (L' - L) = 2 ^ 26).
Proof.
  intros Himg H2. pose proof (rgb_raster_lsbs_length img Himg) as Hcap.
  destruct Himg as [Hpix _].
  destruct img as [w h buf]. cbn [pixels width height] in *.
  destruct buf as [|[[r0 g0] b0] [|[[r1 g1] b1] buf]];
    try (simpl in H2; lia).
  cbv zeta. unfold flip_lsb. cbn [pixels width height].
  change (5 / 3)%nat with 1%nat. change (5 mod 3)%nat with 2%nat.
  cbn [nth_error update flip_channel pixels].
  split; [reflexivity|]. split; [|split; [|split; [|split]]].
  - intros i Hi. do 6 (destruct i as [|i]; [try reflexivity; lia|]).
    reflexivity.
  - cbn. intros E. injection E as E. now apply lsb_char_flip in E.
  - now apply extract_scan_scan_of.
  - now apply extract_scan_scan_of.
  - intros H32. rewrite <- Hcap in H32.
    change (lsbs ((r0, g0, b0) :: (r1, g1, ?b) :: buf))
      with ([lsb_char r0; lsb_char g0; lsb_char b0; lsb_char r1; lsb_char g1;
             lsb_char b] ++ lsbs buf) in *.
    rewrite length_app in H32. cbn [length] in H32.
    assert (H26 : length (firstn 26 (lsbs buf)) = 26%nat)
      by (rewrite length_firstn; lia).
    cbn [app]. rewrite !firstn_32_skip_6. do 2 eexists.
    split; [|split]; try (apply int_bits; [|discriminate];
      repeat (apply bit_string_cons; split; [apply is_bit_bit_char|]);
      apply bit_string_firstn, lsbs_bit_string).
    cbn [bits_value].
    rewrite (bits_value_acc _ (2 * _ + bit_value (lsb_char (Z.lxor b1 1)))).
    rewrite (bits_value_acc _ (2 * _ + bit_value (lsb_char b1))).
    rewrite H26. pose proof (bit_value_lsb_flip b1) as Hflip.
    change (2 ^ Z.of_nat 26) with 67108864. change (2 ^ 26) with 67108864.
    lia.
Qed.

Lemma flip_5_changes_bit_5_witness :
  let s := lsbs (pixels carrier_A) in
  let s' := lsbs (pixels (flip_lsb 5 carrier_A)) in
  length s' = length s /\
  (forall i, i <> 5%nat -> nth_error s' i = nth_error s i) /\
  nth_error s' 5 <> nth_error s 5 /\
  extract_scan carrier_A = scan_of s /\
  extract_scan (flip_lsb 5 carrier_A) = scan_of s' /\
  ((32 <= capacity carrier_A)%nat ->
   exists L L',
     Py.int (firstn 32 s) 2 = Ok L /\ Py.int (firstn 32 s') 2 = Ok L' /\
     Z.abs (L' - L) = 2 ^ 26).
Proof.
  apply (flip_5_changes_bit_5 carrier_A).
  - split; reflexivity.
  - vm_compute. lia.
Defined.

(** * Further properties of the code *)

(** ** The bit framer on any input *)

Lemma slice_group {A : Type} (pre body : list A) (k : Z) :
  k = Py.len pre -> Py.slice (pre ++ body) k (k + 8) = firstn 8 body.
Proof.
  unfold Py.len. intros ->. rewrite slice_nonneg by lia.
  rewrite Nat2Z.id, skipn_app, skipn_all, Nat.sub_diag. cbn [app skipn].
  f_equal. lia.
Qed.

Lemma int_bit_string_bounds (s : Py.str) :
  bit_string s -> s <> [] ->
  exists v, Py.int s 2 = Ok v /\ 0 <= v < 2 ^ Z.of_nat (length s).
Proof.
  intros Hs Hne. exists (bits_value 0 s). split; [now apply int_bits|].
  pose proof (bits_value_bounds s 0 ltac:(lia)). lia.
Qed.

(** The groups of eight bits, the last one shorter when the bits run
    out, all decode, to code points below 256. *)
Lemma decode_groups_any (count : nat) (pre body : Py.str) (k : Z) :
  bit_string body -> k = Py.len pre ->
  (length body <= 8 * count < length body + 8)%nat ->
  exists msg,
    mapM (fun i => v <- Py.int (Py.slice (pre ++ body) i (i + 8)) 2 ;; Py.chr v)%result
         (Py.range_from k 8 count)
    = Ok msg /\
    length msg = count /\
    Forall (fun c => (c <= 255)%N) msg.
Proof.
  revert pre body k. induction count as [|count IH]; intros pre body k Hb Hk Hc.
  - exists []. repeat split. constructor.
  - cbn [Py.range_from mapM]. rewrite slice_group by trivial.
    assert (Hne : firstn 8 body <> []).
    { destruct body; [simpl in Hc; lia|discriminate]. }
    destruct (int_bit_string_bounds (firstn 8 body)) as [v [Hv Hrange]];
      trivial; [now apply bit_string_firstn|].
    rewrite Hv. cbn [rbind].
    assert (Hv256 : v < 256).
    { assert (2 ^ Z.of_nat (length (firstn 8 body)) <= 2 ^ 8)
        by (apply Z.pow_le_mono_r; [lia|rewrite length_firstn; lia]).
      change (2 ^ 8) with 256 in *. lia. }
    unfold Py.chr at 1.
    destruct (Z.leb_spec 0 v); [|lia].
    destruct (Z.leb_spec v 1114111); [|lia]. cbn [andb rbind].
    destruct (Nat.le_gt_cases 8 (length body)) as [H8|H8].
    + destruct (IH (pre ++ firstn 8 body) (skipn 8 body) (k + 8))
        as [msg [Hmsg [Hn Hall]]].
      * now apply bit_string_skipn.
      * unfold Py.len in *. rewrite length_app, length_firstn. lia.
      * rewrite length_skipn. lia.
      * rewrite <- app_assoc, firstn_skipn in Hmsg. rewrite Hmsg.
        cbn [rbind]. eexists. split; [reflexivity|]. split.
        -- simpl. now rewrite Hn.
        -- constructor; [lia|exact Hall].
    + assert (count = 0%nat) by lia. subst count.
      cbn [Py.range_from mapM rbind]. eexists. split; [reflexivity|].
      split; [reflexivity|]. constructor; [lia|constructor].
Qed.

Lemma range_count (n : nat) :
  let count := Z.to_nat ((Z.of_nat n - 0 + 8 - 1) / 8) in
  (n <= 8 * count < n + 8)%nat.
Proof.
  cbv zeta.
  pose proof (Z.div_mod (Z.of_nat n - 0 + 8 - 1) 8 ltac:(lia)) as Hdm.
  pose proof (Z.mod_pos_bound (Z.of_nat n - 0 + 8 - 1) 8 ltac:(lia)) as Hm.
  assert (0 <= (Z.of_nat n - 0 + 8 - 1) / 8)
    by (apply Z.div_pos; lia).
  lia.
Qed.

(** [bits_to_message] on any bit string that is not empty. *)
Lemma bits_to_message_decodes (b : Py.str) :
  bit_string b -> b <> [] ->
  exists L msg,
    Py.int (Py.slice b 0 32) 2 = Ok L /\ 0 <= L /\
    bits_to_message b = Ok msg /\
    Forall (fun c => (c <= 255)%N) msg /\
    Py.len msg = (Z.max 0 (Z.min (8 * L) (Py.len b - 32)) + 7) / 8.
Proof.
  intros Hb Hne.
  assert (H32 : Py.slice b 0 32 = firstn 32 b)
    by (change 32 with (Z.of_nat 32); apply slice_prefix).
  destruct (int_bit_string_bounds (firstn 32 b)) as [L [HL [HL0 _]]].
  { now apply bit_string_firstn. }
  { destruct b; [contradiction|discriminate]. }
  exists L. unfold bits_to_message. rewrite H32, HL. cbn [rbind].
  set (body := Py.slice b 32 (32 + L * 8)).
  assert (Hbody : Py.len body = Z.max 0 (Z.min (8 * L) (Py.len b - 32))).
  { unfold body, Py.len. rewrite slice_nonneg by lia.
    rewrite length_firstn, length_skipn. lia. }
  assert (Hbits : bit_string body).
  { unfold body. rewrite slice_nonneg by lia.
    now apply bit_string_firstn, bit_string_skipn. }
  unfold Py.range.
  destruct (decode_groups_any
              (Z.to_nat ((Py.len body - 0 + 8 - 1) / 8)) [] body 0 Hbits eq_refl)
    as [msg [Hmsg [Hn Hall]]].
  { apply range_count. }
  cbn [app] in Hmsg. rewrite Hmsg. cbn [rbind].
  exists msg. repeat split; trivial.
  unfold Py.len at 1. rewrite Hn, <- Hbody.
  rewrite Z2Nat.id; [f_equal; lia|].
  apply Z.div_pos; unfold Py.len; lia.
Qed.

(** X1: encoding never fails and never truncates: for every payload,
    whatever its code points and its length, the result is a string of
    the characters '0' and '1' only, of 32 + 8 L characters at least. *)
Theorem message_to_bits_any_payload (p : text) :
  bit_string (message_to_bits p) /\
  (32 + 8 * length p <= length (message_to_bits p))%nat.
Proof.
  split; [apply message_to_bits_bit_string|].
  unfold message_to_bits. rewrite length_app.
  pose proof (format_b_length_ge 32 (Py.len p)) as H32.
  pose proof (payload_bits_length_ge p). unfold Py.len in *. lia.
Qed.

(** X2: decoding signals no framing error.  On every bit string that
    is not empty it returns a message: the first 32 bits at most are read
    as the length L, and the message has one character, of code point
    0-255, for every group of eight bits started among the min(8 L,
    len - 32) bits that follow, a last, shorter group included. *)
Theorem bits_to_message_truncated_frame (b : Py.str) :
  bit_string b -> b <> [] ->
  exists L msg,
    Py.int (Py.slice b 0 32) 2 = Ok L /\
    bits_to_message b = Ok msg /\
    Forall (fun c => (c <= 255)%N) msg /\
    Py.len msg = (Z.max 0 (Z.min (8 * L) (Py.len b - 32)) + 7) / 8.
Proof.
  intros Hb Hne.
  destruct (bits_to_message_decodes b Hb Hne) as [L [msg [HL [_ [Hm [Ha Hn]]]]]].
  exists L, msg. auto.
Qed.

Lemma bits_to_message_truncated_frame_witness :
  exists L msg,
    Py.int (Py.slice (list_ascii_of_string
      "000000000000000000000000000000110100000101") 0 32) 2 = Ok L /\
    bits_to_message (list_ascii_of_string
      "000000000000000000000000000000110100000101") = Ok msg /\
    Forall (fun c => (c <= 255)%N) msg /\
    Py.len msg
    = (Z.max 0 (Z.min (8 * L)
         (Py.len (list_ascii_of_string
            "000000000000000000000000000000110100000101") - 32)) + 7) / 8.
Proof.
  apply (bits_to_message_truncated_frame
           (list_ascii_of_string "000000000000000000000000000000110100000101")).
  - reflexivity.
  - discriminate.
Defined.

(** X3: on a bit string, decoding raises exactly when the string is
    empty, and then the [ValueError] of [int('', 2)]. *)
Theorem bits_to_message_raises_iff_empty (b : Py.str) :
  bit_string b ->
  ((exists e, bits_to_message b = Raise e) <-> b = []) /\
  (b = [] ->
   bits_to_message b
   = Raise (ValueError "invalid literal for int() with base 2: ''")).
Proof.
  intros Hb. split; [split|].
  - intros [e He]. destruct b as [|c b]; [reflexivity|].
    destruct (bits_to_message_decodes (c :: b) Hb) as [L [msg [_ [_ [Hm _]]]]];
      [discriminate|].
    rewrite Hm in He. discriminate.
  - intros ->. eexists. reflexivity.
  - intros ->. reflexivity.
Qed.

Lemma bits_to_message_raises_iff_empty_witness :
  ((exists e, bits_to_message [] = Raise e) <-> @nil ascii = []) /\
  (@nil ascii = [] ->
   bits_to_message []
   = Raise (ValueError "invalid literal for int() with base 2: ''")).
Proof.
  apply (bits_to_message_raises_iff_empty []).
  reflexivity.
Defined.

(** ** What embedding does to a channel *)

Lemma bit_value_b2z (b : ascii) : bit_value b = Z.b2z (Ascii.eqb b "1").
Proof. unfold bit_value. now destruct (Ascii.eqb b "1"). Qed.

(** Clearing the least significant bit and setting it to [v] keeps the
    half of the colour. *)
Lemma lor_land_lnot_1 (c : Z) (v : bool) :
  Z.lor (Z.land c (Z.lnot 1)) (Z.b2z v) = 2 * (c / 2) + Z.b2z v.
Proof.
  apply Z.bits_inj'. intros n Hn.
  rewrite Z.lor_spec, Z.land_spec, Z.lnot_spec by trivial.
  destruct (Z.eq_dec n 0) as [->|Hn0].
  - rewrite Z.testbit_0_r. change (Z.testbit 1 0) with true.
    rewrite andb_false_r. cbn [negb orb]. apply Z.b2z_bit0.
  - replace n with (Z.succ (n - 1)) by lia.
    rewrite Z.testbit_succ_r by lia.
    change 1 with (2 * 0 + Z.b2z true) at 2.
    rewrite Z.testbit_succ_r, Z.testbit_0_l by lia.
    replace (Z.b2z v) with (2 * 0 + Z.b2z v) at 1 by lia.
    rewrite Z.testbit_succ_r, Z.testbit_0_l by lia.
    cbn [negb]. rewrite andb_true_r, orb_false_r.
    symmetry. apply Z.div2_bits. lia.
Qed.

Lemma embed_at_cases (bs : Py.str) (i : nat) (c : Z) :
  embed_at bs i c = c \/
  exists v : bool, embed_at bs i c = 2 * (c / 2) + Z.b2z v.
Proof.
  unfold embed_at. destruct (nth_error bs i) as [b|]; [right|now left].
  exists (Ascii.eqb b "1"). rewrite bit_value_b2z. apply lor_land_lnot_1.
Qed.

Lemma half_of_embed_at (bs : Py.str) (i : nat) (c : Z) :
  embed_at bs i c / 2 = c / 2.
Proof.
  destruct (embed_at_cases bs i c) as [->|[v ->]]; [reflexivity|].
  rewrite Z.mul_comm, Z.div_add_l by lia.
  destruct v; cbn [Z.b2z]; [change (1 / 2) with 0|change (0 / 2) with 0]; lia.
Qed.

Lemma embed_at_near (bs : Py.str) (i : nat) (c : Z) :
  Z.abs (embed_at bs i c - c) <= 1.
Proof.
  destruct (embed_at_cases bs i c) as [->|[v ->]]; [lia|].
  pose proof (Z.div_mod c 2 ltac:(lia)).
  pose proof (Z.mod_pos_bound c 2 ltac:(lia)). destruct v; cbn [Z.b2z]; lia.
Qed.

Lemma embed_at_byte (bs : Py.str) (i : nat) (c : Z) :
  is_byte c = true -> is_byte (embed_at bs i c) = true.
Proof.
  unfold is_byte. intros H. apply andb_true_iff in H. destruct H as [H0 H1].
  apply Z.leb_le in H0. apply Z.ltb_lt in H1.
  pose proof (embed_at_near bs i c). pose proof (half_of_embed_at bs i c) as Hh.
  pose proof (Z.div_mod c 2 ltac:(lia)).
  pose proof (Z.mod_pos_bound c 2 ltac:(lia)).
  pose proof (Z.div_mod (embed_at bs i c) 2 ltac:(lia)).
  pose proof (Z.mod_pos_bound (embed_at bs i c) 2 ltac:(lia)).
  apply andb_true_iff. split; [apply Z.leb_le|apply Z.ltb_lt]; lia.
Qed.

Lemma embed_at_twice (bs : Py.str) (i : nat) (c : Z) :
  embed_at bs i (embed_at bs i c) = embed_at bs i c.
Proof.
  unfold embed_at. destruct (nth_error bs i) as [b|]; [|reflexivity].
  rewrite bit_value_b2z, !lor_land_lnot_1.
  rewrite (Z.mul_comm 2 (c / 2)), Z.div_add_l by lia.
  destruct (Ascii.eqb b "1"); cbn [Z.b2z];
    [change (1 / 2) with 0|change (0 / 2) with 0]; lia.
Qed.

Lemma embed_channels_bytes (bs : Py.str) (i : nat) (cs : list Z) :
  forallb is_byte cs = true -> forallb is_byte (embed_channels bs i cs) = true.
Proof.
  revert i. induction cs as [|c cs IH]; intros i H; [reflexivity|].
  cbn [forallb embed_channels] in *. apply andb_true_iff in H.
  destruct H as [Hc Hcs]. now rewrite embed_at_byte, IH.
Qed.

Lemma embed_channels_length (bs : Py.str) (i : nat) (cs : list Z) :
  length (embed_channels bs i cs) = length cs.
Proof.
  revert i. induction cs as [|c cs IH]; intros i; [reflexivity|].
  cbn [embed_channels length]. now rewrite IH.
Qed.

Lemma embed_pixels_twice (bs : Py.str) (k : nat) (ps : list pixel) :
  embed_pixels bs k (embed_pixels bs k ps) = embed_pixels bs k ps.
Proof.
  revert k. induction ps as [|[[r g] b] ps IH]; intros k; [reflexivity|].
  cbn [embed_pixels]. now rewrite !embed_at_twice, IH.
Qed.

(** Whether the bit string fits or not, [embed] leaves this raster. *)
Lemma embed_leaves (img : image) (bs : Py.str) :
  bit_string bs -> rgb_raster img ->
  snd (embed img bs)
  = if (capacity img <? length bs)%nat then img
    else mkImage (width img) (height img) (embed_pixels bs 0 (pixels img)).
Proof.
  intros Hbs [Hpix _].
  destruct (Nat.ltb_spec (capacity img) (length bs)).
  - now rewrite capacity_check_raises.
  - now rewrite embed_fits.
Qed.

Lemma embed_leaves_rgb_raster (img : image) (bs : Py.str) :
  bit_string bs -> rgb_raster img ->
  rgb_raster (snd (embed img bs)) /\
  width (snd (embed img bs)) = width img /\
  height (snd (embed img bs)) = height img.
Proof.
  intros Hbs Himg. rewrite embed_leaves by trivial.
  destruct (capacity img <? length bs)%nat; [auto|].
  destruct Himg as [Hpix Hbytes]. cbn [width height pixels].
  split; [|auto]. split; cbn [width height pixels].
  - now rewrite embed_pixels_length.
  - rewrite channels_embed_pixels. now apply embed_channels_bytes.
Qed.

(** Hiding a payload that fits and extracting from the raster left. *)
Lemma hide_then_extract (img : image) (p : text) :
  code_points_8bit p -> Py.len p < 2 ^ 32 ->
  rgb_raster img -> (32 + 8 * length p <= capacity img)%nat ->
  fst (hide_message_in_image img p) = Ok tt /\
  extract_message_from_image (snd (hide_message_in_image img p)) = Ok p.
Proof.
  intros Hp Hlen Himg Hcap. pose proof (rgb_raster_length img Himg) as Hpix.
  unfold hide_message_in_image. rewrite message_to_bits_frame by trivial.
  assert (Hbs : bit_string (frame p))
    by (rewrite <- message_to_bits_frame by trivial;
        apply message_to_bits_bit_string).
  pose proof (frame_length p) as Hfl.
  rewrite embed_fits by (trivial; lia). cbn [fst snd].
  split; [reflexivity|].
  unfold extract_message_from_image. rewrite extract_scan_scan_of.
  - cbn [pixels]. rewrite lsbs_embed_pixels
      by (trivial; unfold capacity in *; lia).
    rewrite scan_of_stable; rewrite scan_of_frame by trivial;
      [|discriminate].
    cbn [rbind]. now apply bits_to_message_frame.
  - cbn [pixels width height]. now rewrite embed_pixels_length.
Qed.

(** ** The embedding as a whole *)

(** X4: embedding keeps the raster an RGB raster of its size: for
    every RGB raster and bit string, whether the string fits or the
    capacity error is raised, the raster that is left has the same width
    and height, one pixel for every position, and 8-bit channels. *)
Theorem embed_keeps_rgb_raster (img : image) (bitstring : Py.str) :
  rgb_raster img -> bit_string bitstring ->
  rgb_raster (snd (embed img bitstring)) /\
  width (snd (embed img bitstring)) = width img /\
  height (snd (embed img bitstring)) = height img /\
  capacity (snd (embed img bitstring)) = capacity img.
Proof.
  intros Himg Hbs.
  destruct (embed_leaves_rgb_raster img bitstring Hbs Himg) as [Hr [Hw Hh]].
  repeat split; try apply Hr; trivial. unfold capacity. now rewrite Hw, Hh.
Qed.

Lemma embed_keeps_rgb_raster_witness :
  rgb_raster (snd (embed raster_4x4 (message_to_bits [65%N]))) /\
  width (snd (embed raster_4x4 (message_to_bits [65%N]))) = width raster_4x4 /\
  height (snd (embed raster_4x4 (message_to_bits [65%N]))) = height raster_4x4 /\
  capacity (snd (embed raster_4x4 (message_to_bits [65%N])))
  = capacity raster_4x4.
Proof.
  apply (embed_keeps_rgb_raster raster_4x4 (message_to_bits [65%N])).
  - split; reflexivity.
  - reflexivity.
Defined.

(** X5: embedding touches least significant bits only: in the raster
    it leaves, every channel has the upper seven bits of the original
    one, so it differs from it by one at most. *)
Theorem embed_changes_lsb_only (img : image) (bitstring : Py.str) :
  rgb_raster img -> bit_string bitstring ->
  length (channels (pixels (snd (embed img bitstring))))
  = length (channels (pixels img)) /\
  forall i c c',
    nth_error (channels (pixels img)) i = Some c ->
    nth_error (channels (pixels (snd (embed img bitstring)))) i = Some c' ->
    c' / 2 = c / 2 /\ Z.abs (c' - c) <= 1.
Proof.
  intros Himg Hbs. rewrite embed_leaves by trivial.
  destruct (capacity img <? length bitstring)%nat.
  - split; [reflexivity|]. intros i c c' Hc Hc'.
    rewrite Hc in Hc'. injection Hc' as <-. split; [reflexivity|lia].
  - cbn [pixels]. rewrite channels_embed_pixels. split.
    + apply embed_channels_length.
    + intros i c c' Hc Hc'. rewrite nth_error_embed_channels, Hc in Hc'.
      cbn [option_map] in Hc'. injection Hc' as <-.
      split; [apply half_of_embed_at|apply embed_at_near].
Qed.

Lemma embed_changes_lsb_only_witness :
  length (channels (pixels (snd (embed raster_4x4 (message_to_bits [65%N])))))
  = length (channels (pixels raster_4x4)) /\
  forall i c c',
    nth_error (channels (pixels raster_4x4)) i = Some c ->
    nth_error
      (channels (pixels (snd (embed raster_4x4 (message_to_bits [65%N]))))) i
    = Some c' ->
    c' / 2 = c / 2 /\ Z.abs (c' - c) <= 1.
Proof.
  apply (embed_changes_lsb_only raster_4x4 (message_to_bits [65%N])).
  - split; reflexivity.
  - reflexivity.
Defined.

(** X6: embedding is idempotent: embedding a bit string into the
    raster that embedding it has left gives the same outcome and the
    same raster again. *)
Theorem embed_twice (img : image) (bitstring : Py.str) :
  rgb_raster img -> bit_string bitstring ->
  embed (snd (embed img bitstring)) bitstring = embed img bitstring.
Proof.
  intros Himg Hbs.
  destruct (embed_leaves_rgb_raster img bitstring Hbs Himg) as [Hr [Hw Hh]].
  pose proof (rgb_raster_length _ Hr) as Hlen.
  pose proof (rgb_raster_length _ Himg) as Hpix.
  assert (Hcap : capacity (snd (embed img bitstring)) = capacity img)
    by (unfold capacity; now rewrite Hw, Hh).
  destruct (Nat.ltb_spec (capacity img) (length bitstring)) as [Hover|Hfits].
  - rewrite (capacity_check_raises img) by trivial. cbn [snd].
    now apply capacity_check_raises.
  - rewrite (embed_fits (snd (embed img bitstring))) by (trivial; lia).
    rewrite Hw, Hh. rewrite (embed_fits img) by trivial. cbn [snd pixels].
    now rewrite embed_pixels_twice.
Qed.

Lemma embed_twice_witness :
  embed (snd (embed raster_4x4 (message_to_bits [65%N]))) (message_to_bits [65%N])
  = embed raster_4x4 (message_to_bits [65%N]).
Proof.
  apply (embed_twice raster_4x4 (message_to_bits [65%N])).
  - split; reflexivity.
  - reflexivity.
Defined.

(** X7: the last message hidden is the one extracted: whatever payload
    was hidden, or refused, before, hiding a payload with code points
    in 0-255 that fits in the raster left and extracting returns this
    payload. *)
Theorem hide_overwrites (img : image) (p1 p2 : text) :
  rgb_raster img ->
  code_points_8bit p2 -> Py.len p2 < 2 ^ 32 ->
  (32 + 8 * length p2 <= capacity img)%nat ->
  let carrier1 := snd (hide_message_in_image img p1) in
  fst (hide_message_in_image carrier1 p2) = Ok tt /\
  extract_message_from_image (snd (hide_message_in_image carrier1 p2)) = Ok p2.
Proof.
  intros Himg Hp Hlen Hcap carrier1.
  destruct (embed_leaves_rgb_raster img (message_to_bits p1)
              (message_to_bits_bit_string p1) Himg) as [Hr [Hw Hh]].
  apply hide_then_extract; trivial.
  unfold carrier1, hide_message_in_image, capacity in *. now rewrite Hw, Hh.
Qed.

Lemma hide_overwrites_witness :
  let carrier1 := snd (hide_message_in_image raster_4x4 [72; 105]%N) in
  fst (hide_message_in_image carrier1 [66%N]) = Ok tt /\
  extract_message_from_image (snd (hide_message_in_image carrier1 [66%N]))
  = Ok [66%N].
Proof.
  apply (hide_overwrites raster_4x4 [72; 105]%N [66%N]).
  - split; reflexivity.
  - reflexivity.
  - reflexivity.
  - vm_compute. lia.
Defined.

(** ** Extraction on any raster *)

(** What the scan of a bit string returns decodes. *)
Lemma scan_of_decodes (s : Py.str) :
  bit_string s ->
  exists msg,
    (f <- scan_of s ;;
     match f with
     | Return relevant_bits => bits_to_message relevant_bits
     | Next _ => Ok []
     end)%result = Ok msg /\
    Forall (fun c => (c <= 255)%N) msg.
Proof.
  intros Hs. unfold scan_of.
  destruct (Nat.ltb_spec (length s) 32) as [Hlt|Hge].
  { exists []. split; [reflexivity|constructor]. }
  destruct (int_bit_string_bounds (firstn 32 s)) as [L [HL [HL0 _]]].
  { now apply bit_string_firstn. }
  { destruct s; [simpl in Hge; lia|discriminate]. }
  rewrite HL. cbn [rbind].
  destruct (32 + L * 8 <=? Py.len s); cbn [rbind].
  - destruct (bits_to_message_decodes (firstn (Z.to_nat (32 + L * 8)) s))
      as [L' [msg [_ [_ [Hm [Hall _]]]]]].
    + now apply bit_string_firstn.
    + replace (Z.to_nat (32 + L * 8)) with (S (Z.to_nat (31 + L * 8))) by lia.
      destruct s; [simpl in Hge; lia|discriminate].
    + exists msg. auto.
  - exists []. split; [reflexivity|constructor].
Qed.

Lemma extraction_returns_message (img : image) :
  rgb_raster img ->
  exists message,
    extract_message_from_image img = Ok message /\
    Forall (fun c => (c <= 255)%N) message.
Proof.
  intros Himg. unfold extract_message_from_image.
  rewrite extract_scan_scan_of by now apply rgb_raster_length.
  apply scan_of_decodes, lsbs_bit_string.
Qed.

(** X8: extraction never raises on an RGB raster, hidden message or
    not: it returns a message, possibly the empty one, whose characters
    all have code points in 0-255. *)
Theorem extract_never_raises (img : image) :
  rgb_raster img ->
  exists message,
    extract_message_from_image img = Ok message /\
    Forall (fun c => (c <= 255)%N) message.
Proof.
  intros Himg. unfold extract_message_from_image.
  rewrite extract_scan_scan_of by now apply rgb_raster_length.
  apply scan_of_decodes, lsbs_bit_string.
Qed.

Lemma extract_never_raises_witness :
  exists message,
    extract_message_from_image raster_4x4 = Ok message /\
    Forall (fun c => (c <= 255)%N) message.
Proof.
  apply (extract_never_raises raster_4x4). split; reflexivity.
Defined.

(** X9: extraction reads least significant bits only: two RGB rasters
    whose channels have the same least significant bits in scan order
    give the same scan and the same message, whatever their upper bits
    and whatever their widths and heights. *)
Theorem extract_reads_lsbs_only (img1 img2 : image) :
  rgb_raster img1 -> rgb_raster img2 ->
  lsbs (pixels img1) = lsbs (pixels img2) ->
  extract_scan img1 = extract_scan img2 /\
  extract_message_from_image img1 = extract_message_from_image img2.
Proof.
  intros H1 H2 Hl.
  assert (Hscan : extract_scan img1 = extract_scan img2).
  { rewrite !extract_scan_scan_of by now apply rgb_raster_length.
    now rewrite Hl. }
  split; [exact Hscan|]. unfold extract_message_from_image. now rewrite Hscan.
Qed.

Lemma extract_reads_lsbs_only_witness :
  extract_scan raster_2x2
  = extract_scan
      (mkImage 2 2 [ (0, 0, 0); (0, 0, 0); (0, 0, 0); (0, 0, 0) ]) /\
  extract_message_from_image raster_2x2
  = extract_message_from_image
      (mkImage 2 2 [ (0, 0, 0); (0, 0, 0); (0, 0, 0); (0, 0, 0) ]).
Proof.
  apply (extract_reads_lsbs_only raster_2x2
           (mkImage 2 2 [ (0, 0, 0); (0, 0, 0); (0, 0, 0); (0, 0, 0) ])).
  - split; reflexivity.
  - split; reflexivity.
  - reflexivity.
Defined.

(** X10: extraction recognises a frame wherever it comes from: an RGB
    raster whose first 32 + 8 L least significant bits, in scan order,
    are the encoding of a payload of L < 2^32 characters with code
    points in 0-255 extracts to this payload, whatever its other
    bits. *)
Theorem extract_recognises_frame (img : image) (p : text) :
  rgb_raster img ->
  code_points_8bit p -> Py.len p < 2 ^ 32 ->
  firstn (32 + 8 * length p) (lsbs (pixels img)) = message_to_bits p ->
  extract_message_from_image img = Ok p.
Proof.
  intros Himg Hp Hlen Hprefix. rewrite message_to_bits_frame in Hprefix by trivial.
  pose proof (frame_length p) as Hfl.
  unfold extract_message_from_image.
  rewrite extract_scan_scan_of by now apply rgb_raster_length.
  assert (Hn : Z.to_nat (32 + 8 * Py.len p) = length (frame p))
    by (unfold Py.len; lia).
  rewrite (scan_of_prefix (frame p) _ (Py.len p)).
  - cbn [rbind]. rewrite Hn, firstn_all. now apply bits_to_message_frame.
  - lia.
  - unfold frame. rewrite firstn_app, be_binary_length, Nat.sub_diag.
    rewrite firstn_O, app_nil_r, firstn_all2 by now rewrite be_binary_length.
    apply int_be_binary; [lia|]. unfold Py.len in *.
    change (Z.of_nat 32) with 32. lia.
  - unfold Py.len. lia.
  - rewrite Hn, firstn_all, Hfl. exact Hprefix.
Qed.

Lemma extract_recognises_frame_witness :
  extract_message_from_image
    (mkImage 4 4 (firstn 14 (pixels carrier_A) ++ [(1, 1, 1); (7, 7, 7)]))
  = Ok [65%N].
Proof.
  apply (extract_recognises_frame
           (mkImage 4 4 (firstn 14 (pixels carrier_A) ++ [(1, 1, 1); (7, 7, 7)]))
           [65%N]).
  - split; reflexivity.
  - reflexivity.
  - reflexivity.
  - reflexivity.
Defined.

(** ** Hiding at the capacity bound and beyond the 8-bit range *)

(** X11: the capacity bound is exact: on an RGB raster, hiding a
    payload of L < 2^32 characters with code points in 0-255 succeeds
    exactly when 32 + 8 L is at most width x height x 3; one channel
    less and the capacity error is raised and the raster left as it
    was. *)
Theorem hide_capacity_boundary (img : image) (p : text) :
  rgb_raster img -> code_points_8bit p -> Py.len p < 2 ^ 32 ->
  (fst (hide_message_in_image img p) = Ok tt
   <-> (32 + 8 * length p <= capacity img)%nat) /\
  ((capacity img < 32 + 8 * length p)%nat ->
   hide_message_in_image img p
   = (Raise (ValueError "The message is too long for the selected image."),
      img)).
Proof.
  intros Himg Hp Hlen. pose proof (rgb_raster_length img Himg) as Hpix.
  pose proof (frame_length p) as Hfl.
  assert (Hbs : bit_string (frame p))
    by (rewrite <- message_to_bits_frame by trivial;
        apply message_to_bits_bit_string).
  unfold hide_message_in_image. rewrite message_to_bits_frame by trivial.
  split; [split|].
  - intros Hok.
    destruct (Nat.le_gt_cases (32 + 8 * length p) (capacity img)) as [|Hover];
      [trivial|].
    rewrite capacity_check_raises in Hok by lia. discriminate.
  - intros Hfits. now rewrite embed_fits by (trivial; lia).
  - intros Hover. apply capacity_check_raises. lia.
Qed.

Lemma hide_capacity_boundary_witness :
  (fst (hide_message_in_image raster_4x4 [72; 105]%N) = Ok tt
   <-> (32 + 8 * length [72; 105]%N <= capacity raster_4x4)%nat) /\
  ((capacity raster_4x4 < 32 + 8 * length [72; 105]%N)%nat ->
   hide_message_in_image raster_4x4 [72; 105]%N
   = (Raise (ValueError "The message is too long for the selected image."),
      raster_4x4)).
Proof.
  apply (hide_capacity_boundary raster_4x4 [72; 105]%N).
  - split; reflexivity.
  - reflexivity.
  - reflexivity.
Defined.

(** X12: a raster of fewer than 32 channels, one of width or height 0
    included, takes no message at all: for every payload, the empty one
    too, hiding raises the capacity error and leaves the raster as it
    was. *)
Theorem hide_refused_by_small_raster (img : image) (p : text) :
  (capacity img < 32)%nat ->
  hide_message_in_image img p
  = (Raise (ValueError "The message is too long for the selected image."), img).
Proof.
  intros Hsmall. apply capacity_check_raises.
  unfold message_to_bits. rewrite length_app.
  pose proof (format_b_length_ge 32 (Py.len p)). unfold Py.len in *. lia.
Qed.

Lemma hide_refused_by_small_raster_witness :
  hide_message_in_image (mkImage 0 7 []) []
  = (Raise (ValueError "The message is too long for the selected image."),
     mkImage 0 7 []).
Proof.
  apply (hide_refused_by_small_raster (mkImage 0 7 []) []).
  vm_compute. lia.
Defined.

Lemma wide_not_8bit (p msg : text) :
  Exists (fun c => (255 < c)%N) p -> Forall (fun c => (c <= 255)%N) msg ->
  msg <> p.
Proof.
  intros Hex Hall ->. apply Exists_exists in Hex. destruct Hex as [c [Hin Hc]].
  apply (proj1 (Forall_forall _ _) Hall) in Hin. lia.
Qed.

(** X13: a character beyond code point 255 is not refused and is not
    recovered: when the bit string of a payload of L < 2^32 characters
    with such a character fits an RGB raster, hiding succeeds, and
    extraction from the raster left returns a message of L characters,
    all of code points in 0-255, which is not the payload. *)
Theorem wide_code_point_is_lost (img : image) (p : text) :
  rgb_raster img ->
  Exists (fun c => (255 < c)%N) p -> Py.len p < 2 ^ 32 ->
  (length (message_to_bits p) <= capacity img)%nat ->
  fst (hide_message_in_image img p) = Ok tt /\
  exists message,
    extract_message_from_image (snd (hide_message_in_image img p)) = Ok message /\
    Py.len message = Py.len p /\
    Forall (fun c => (c <= 255)%N) message /\
    message <> p.
Proof.
  intros Himg Hwide Hlen Hfits. pose proof (rgb_raster_length img Himg) as Hpix.
  pose proof (message_to_bits_bit_string p) as Hbs.
  assert (Hlong : (32 + 8 * length p < length (message_to_bits p))%nat).
  { unfold message_to_bits. rewrite length_app.
    pose proof (format_b_length_ge 32 (Py.len p)).
    pose proof (payload_bits_length_gt p Hwide). unfold Py.len in *. lia. }
  assert (H32 : firstn 32 (message_to_bits p) = be_binary 32 (Py.len p)).
  { unfold message_to_bits.
    rewrite format_b_be_binary
      by (unfold Py.len in *; change (Z.of_nat 32) with 32; lia).
    rewrite firstn_app, be_binary_length, Nat.sub_diag.
    rewrite firstn_O, app_nil_r. apply firstn_all2.
    now rewrite be_binary_length. }
  assert (HL : Py.int (firstn 32 (message_to_bits p)) 2 = Ok (Py.len p)).
  { rewrite H32. apply int_be_binary; [lia|]. unfold Py.len in *.
    change (Z.of_nat 32) with 32. lia. }
  unfold hide_message_in_image. rewrite embed_fits by trivial.
  cbn [fst snd]. split; [reflexivity|].
  unfold extract_message_from_image. rewrite extract_scan_scan_of
    by (cbn [pixels width height]; now rewrite embed_pixels_length).
  cbn [pixels]. rewrite lsbs_embed_pixels
    by (trivial; unfold capacity in *; lia).
  set (n := Z.to_nat (32 + 8 * Py.len p)).
  assert (Hn : n = (32 + 8 * length p)%nat) by (unfold n, Py.len; lia).
  rewrite (scan_of_prefix (message_to_bits p) _ (Py.len p)); trivial;
    try (unfold Py.len; lia).
  2:{ rewrite firstn_app. fold n.
      replace (n - length (message_to_bits p))%nat with 0%nat by lia.
      now rewrite firstn_O, app_nil_r. }
  cbn [rbind]. fold n.
  destruct (bits_to_message_decodes (firstn n (message_to_bits p)))
    as [L [msg [HL' [_ [Hmsg [Hall Hcount]]]]]].
  { now apply bit_string_firstn. }
  { rewrite Hn. destruct (message_to_bits p); [simpl in Hlong; lia|].
    discriminate. }
  assert (L = Py.len p).
  { change 32 with (Z.of_nat 32) in HL'.
    rewrite slice_prefix, firstn_firstn in HL'.
    replace (Nat.min 32 n) with 32%nat in HL' by lia.
    rewrite HL in HL'. now injection HL' as <-. }
  subst L. exists msg. split; [exact Hmsg|]. split; [|split; trivial].
  - rewrite Hcount. unfold Py.len at 2. rewrite length_firstn.
    replace (Z.of_nat (Nat.min n (length (message_to_bits p))))
      with (32 + 8 * Py.len p) by (unfold Py.len; lia).
    replace (Z.max 0 (Z.min (8 * Py.len p) (32 + 8 * Py.len p - 32)) + 7)
      with (Py.len p * 8 + 7) by (unfold Py.len; lia).
    rewrite Z.div_add_l by lia. change (7 / 8) with 0. lia.
  - now apply wide_not_8bit.
Qed.

Lemma wide_code_point_is_lost_witness :
  fst (hide_message_in_image raster_4x4 [8364%N]) = Ok tt /\
  exists message,
    extract_message_from_image (snd (hide_message_in_image raster_4x4 [8364%N]))
    = Ok message /\
    Py.len message = Py.len [8364%N] /\
    Forall (fun c => (c <= 255)%N) message /\
    message <> [8364%N].
Proof.
  apply (wide_code_point_is_lost raster_4x4 [8364%N]).
  - split; reflexivity.
  - apply Exists_cons_hd. reflexivity.
  - reflexivity.
  - vm_compute. lia.
Defined.

(** ** The window *)

Example rstrip_newline_inner :
  rstrip_newline [10; 72; 10; 105; 10; 10]%N = [10; 72; 10; 105]%N.
Proof. reflexivity. Qed.

Example save_hidden_image_no_image :
  save_hidden_image img_save_sample left_untouched
                    app_init [72; 105]%N "out.png" files_4x4
  = ([showerror "Error" "Please load an image first."], files_4x4).
Proof. reflexivity. Qed.

Example save_hidden_image_not_written :
  fst (save_hidden_image img_save_sample left_untouched
                         (load_hide_image app_init "in.png")
                         [72; 105]%N "out.xyz" files_4x4)
  = [showerror_exception "Error" (OSError "not written")].
Proof. reflexivity. Qed.

Example decrypt_message_missing_file :
  decrypt_message (load_extract_image app_init "none.png") files_4x4
  = Failed (FileNotFoundError "none.png").
Proof. reflexivity. Qed.

Lemma rstrip_newline_newlines (n : nat) : rstrip_newline (repeat 10%N n) = [].
Proof. induction n as [|n IH]; [reflexivity|]. simpl. now rewrite IH. Qed.

Lemma rstrip_newline_app_newlines (s : text) (n : nat) :
  rstrip_newline (s ++ repeat 10%N n) = rstrip_newline s.
Proof.
  induction s as [|c s IH]; [apply rstrip_newline_newlines|].
  cbn [app rstrip_newline]. now rewrite IH.
Qed.


Lemma store_same (fs : files) (p : file_path) (content : option image) :
  store fs p content p = content.
Proof. unfold store. now rewrite String.eqb_refl. Qed.

Section Window.

Variable img_save : file_path -> image -> outcome image.
Variable left_after_failure : file_path -> image -> option image -> option image.


(** X15: the window round trip, for an output file that the image
    library writes without loss, as it does a PNG file: with an RGB
    raster loaded in the hide tab and a message that, its trailing
    newlines removed, is not empty, has code points in 0-255 and fits
    the raster, the save handler shows the success box; loading the
    file it wrote in the extract tab, the decrypt handler sets the
    result label to the message without its trailing newlines. *)
Theorem window_round_trip
        (a : SteganographyApp) (fs : files) (image_path output_path : file_path)
        (img : image) (got : text) :
  image_path <> EmptyString -> output_path <> EmptyString ->
  fs image_path = Some img -> rgb_raster img ->
  let message := rstrip_newline got in
  message <> [] -> code_points_8bit message -> Py.len message < 2 ^ 32 ->
  (32 + 8 * length message <= capacity img)%nat ->
  img_save output_path (snd (hide_message_in_image img message))
  = Done (snd (hide_message_in_image img message)) ->
  let a1 := load_hide_image a image_path in
  let saved :=
    save_hidden_image img_save left_after_failure a1 got output_path fs in
  let a2 := load_extract_image a1 output_path in
  fst saved = [showinfo "Success" "Message hidden and image saved successfully."] /\
  exists a3,
    decrypt_message a2 (snd saved) = Done (a3, []) /\
    extract_result a3 = message.
Proof.
  intros Hin Hout Hfile Himg message Hne Hp Hlen Hfits Hsave a1 saved a2.
  destruct (hide_then_extract img message Hp Hlen Himg Hfits) as [Hhide Hext].
  destruct image_path as [|i image_path]; [contradiction|].
  destruct output_path as [|o output_path]; [contradiction|].
  subst saved a1 a2.
  unfold save_hidden_image, decrypt_message, load_hide_image,
    load_extract_image.
  cbn [hide_image_path extract_image_path chosen_path].
  subst message. destruct (rstrip_newline got) as [|c message];
    [contradiction|].
  unfold hide_message_in_image_file. rewrite Hfile.
  destruct (hide_message_in_image img (c :: message)) as [r carrier].
  cbn [fst snd] in *. subst r. unfold save. rewrite Hsave. cbn [fst snd].
  split; [reflexivity|].
  unfold extract_message_from_image_file. rewrite store_same, Hext.
  eexists. split; reflexivity.
Qed.

(** X16: trailing newlines of the text are never hidden: with any
    number of newlines added at the end of the content of the text
    widget, the save handler shows the same boxes and leaves the same
    files. *)
Theorem save_hidden_image_drops_trailing_newlines
        (a : SteganographyApp) (got : text) (n : nat)
        (output_path : file_path) (fs : files) :
  save_hidden_image img_save left_after_failure
                    a (got ++ repeat 10%N n) output_path fs
  = save_hidden_image img_save left_after_failure a got output_path fs.
Proof.
  unfold save_hidden_image. now rewrite rstrip_newline_app_newlines.
Qed.

End Window.

Lemma window_round_trip_witness :
  let a1 := load_hide_image app_init "in.png" in
  let saved :=
    save_hidden_image img_save_sample left_untouched
                      a1 [72; 105; 10; 10]%N "out.png" files_4x4 in
  let a2 := load_extract_image a1 "out.png" in
  fst saved = [showinfo "Success" "Message hidden and image saved successfully."] /\
  exists a3,
    decrypt_message a2 (snd saved) = Done (a3, []) /\
    extract_result a3 = rstrip_newline [72; 105; 10; 10]%N.
Proof.
  apply (window_round_trip img_save_sample left_untouched
                           app_init files_4x4 "in.png" "out.png" raster_4x4
                           [72; 105; 10; 10]%N).
  - discriminate.
  - discriminate.
  - reflexivity.
  - split; reflexivity.
  - discriminate.
  - reflexivity.
  - reflexivity.
  - vm_compute. lia.
  - reflexivity.
Defined.

(** X17: the decrypt handler, which catches no exception, needs none
    caught on a file that holds an RGB raster: it shows no box, keeps
    both paths, and sets the result label to a text that is never empty,
    the extracted message or, when extraction returns the empty message,
    the notice "No hidden message found.". *)
Theorem decrypt_message_on_rgb_raster
        (a : SteganographyApp) (fs : files) (image_path : file_path)
        (img : image) :
  extract_image_path a = Some image_path -> image_path <> EmptyString ->
  fs image_path = Some img -> rgb_raster img ->
  exists a',
    decrypt_message a fs = Done (a', []) /\
    hide_image_path a' = hide_image_path a /\
    extract_image_path a' = extract_image_path a /\
    extract_result a' <> [] /\
    (extract_message_from_image img = Ok [] ->
     extract_result a' = text_of_string "No hidden message found.") /\
    (forall message,
        message <> [] -> extract_message_from_image img = Ok message ->
        extract_result a' = message).
Proof.
  intros Hpath Hne Hfile Himg.
  destruct (extraction_returns_message img Himg) as [message [Hext _]].
  destruct image_path as [|i image_path]; [contradiction|].
  unfold decrypt_message, extract_message_from_image_file.
  rewrite Hpath. cbn [chosen_path]. rewrite Hfile, Hext.
  destruct message as [|c message]; eexists; (split; [reflexivity|]);
    cbn [hide_image_path extract_image_path extract_result];
    repeat split; try discriminate; try reflexivity.
  - intros message Hm Hok. injection Hok as <-. contradiction.
  - intros message' _ Hok. now injection Hok as <-.
Qed.

Lemma decrypt_message_on_rgb_raster_witness :
  exists a',
    decrypt_message (load_extract_image app_init "in.png") files_4x4
    = Done (a', []) /\
    hide_image_path a'
    = hide_image_path (load_extract_image app_init "in.png") /\
    extract_image_path a'
    = extract_image_path (load_extract_image app_init "in.png") /\
    extract_result a' <> [] /\
    (extract_message_from_image raster_4x4 = Ok [] ->
     extract_result a' = text_of_string "No hidden message found.") /\
    (forall message,
        message <> [] -> extract_message_from_image raster_4x4 = Ok message ->
        extract_result a' = message).
Proof.
  apply (decrypt_message_on_rgb_raster
           (load_extract_image app_init "in.png") files_4x4 "in.png" raster_4x4).
  - reflexivity.
  - discriminate.
  - reflexivity.
  - split; reflexivity.
Defined.
